(** * Media-Database: the data-access layer [MDBHandler] of mdb_handler.py

    A shallow embedding of the handler class and of the part of the sqlite3
    engine its statements use, followed by the properties of the handler's
    operations.

    Layout:
    - [Sql]: values, column affinity, comparison, [LIKE], tables, the
      statements the handler issues and what they compute on a database;
    - [Py]: exceptions, the connection and cursor objects, transactions,
      the monad in which method bodies run ([try]/[except], [with], [yield]);
    - [Handler]: the methods of [MDBHandler], one definition per method
      ([__str__] is not part of it);
    - [Spec]: the wording of the specification that the theorems refer to;
    - [Examples]: small stores built with the methods themselves;
    - then the lemmas and theorems. *)

From Stdlib Require Import ZArith Ascii String DecimalString Permutation Sorted Lia.
From stdpp Require Import base decidable option list sorting gmap strings.

Local Open Scope string_scope.
Local Open Scope list_scope.

(** Exceptions a method body can meet: the two the engine raises
    (sqlite3.OperationalError for a statement it rejects or a storage
    failure, sqlite3.IntegrityError for a violated constraint), Python's
    OverflowError for an [int] that does not fit the C integer it is passed
    as, IndexError for [entry[i]] past the end of a tuple, and the error of
    the sqlite3 module for a statement text that holds the character NUL
    (ValueError; sqlite3.ProgrammingError in later versions of the module). *)
Inductive exn :=
  | OperationalError | IntegrityError | OverflowError | IndexError | ValueError.

Inductive result (A : Type) :=
  | Ok (a : A)
  | Raise (e : exn).
Arguments Ok {A} a.
Arguments Raise {A} e.

(** ** The engine *)

Module Sql.

(** A Python value bound to a statement or read back from a row:
    [None] is [VNull], an [int] is [VInt], a [str] is [VText]: the bytes of
    its UTF-8 encoding, which is how the engine holds it (comparison is by
    byte, the order of the engine's BINARY collation). *)
Inductive value :=
  | VNull
  | VInt (n : Z)
  | VText (s : string).

Global Instance value_eq_dec : EqDecision value.
Proof. solve_decision. Defined.

(** The two column affinities the schema of [create_tables] declares:
    INTEGER and VARCHAR (TEXT affinity). *)
Inductive affinity := INTEGER | VARCHAR.

Global Instance affinity_eq_dec : EqDecision affinity.
Proof. solve_decision. Defined.

(** An [int] is bound as a 64-bit integer; a larger one cannot be bound. *)
Definition bindable (v : value) : bool :=
  match v with
  | VInt n => ((- 2 ^ 63 <=? n) && (n <? 2 ^ 63))%Z
  | _ => true
  end.

(** *** Text *)

Definition is_upper (c : ascii) : bool :=
  ((65 <=? nat_of_ascii c) && (nat_of_ascii c <=? 90))%nat.

(** ASCII case folding: only 'A'..'Z' change. *)
Definition lower_ascii (c : ascii) : ascii :=
  if is_upper c then ascii_of_nat (nat_of_ascii c + 32) else c.

Fixpoint lower (s : string) : string :=
  match s with
  | EmptyString => EmptyString
  | String c s' => String (lower_ascii c) (lower s')
  end.

Definition is_space (c : ascii) : bool :=
  let n := nat_of_ascii c in
  ((n =? 32) || ((9 <=? n) && (n <=? 13)))%nat.

Definition is_digit (c : ascii) : bool :=
  ((48 <=? nat_of_ascii c) && (nat_of_ascii c <=? 57))%nat.

Fixpoint skip_spaces (s : string) : string :=
  match s with
  | String c s' => if is_space c then skip_spaces s' else s
  | EmptyString => EmptyString
  end.

(** Digits, then only spaces: the number read so far is [acc]. *)
Fixpoint read_digits (acc : Z) (s : string) : option Z :=
  match s with
  | EmptyString => Some acc
  | String c s' =>
      if is_digit c
      then read_digits (10 * acc + (Z.of_nat (nat_of_ascii c) - 48))%Z s'
      else if is_space c
      then (if String.eqb (skip_spaces s') EmptyString then Some acc else None)
      else None
  end.

(** Text that spells an integer: spaces, an optional sign, at least one digit,
    spaces.  The engine stores such text as an integer in an INTEGER column
    when it fits 64 bits.  Text that spells a number with a fraction or an
    exponent, or an integer beyond 64 bits, is stored there as the number it
    spells (an integer when it is one, else a REAL); this development has no
    such values, and what it states of stored rows it states for integer
    columns that are given integers. *)
Definition integer_literal (s : string) : option Z :=
  let body (t : string) :=
    match t with
    | String c _ => if is_digit c then read_digits 0 t else None
    | EmptyString => None
    end in
  let n :=
    match skip_spaces s with
    | String "-" t => Z.opp <$> body t
    | String "+" t => body t
    | t => body t
    end in
  match n with
  | Some z => if ((- 2 ^ 63 <=? z) && (z <? 2 ^ 63))%Z then Some z else None
  | None => None
  end.

Definition decimal (n : Z) : string := NilZero.string_of_int (Z.to_int n).

(** A value as it is stored in (or compared with) a column of affinity [a]. *)
Definition apply_affinity (a : affinity) (v : value) : value :=
  match a, v with
  | VARCHAR, VInt n => VText (decimal n)
  | INTEGER, VText s =>
      match integer_literal s with
      | Some n => VInt n
      | None => VText s
      end
  | _, _ => v
  end.

(** *** Comparison *)

(** [a = b] in a WHERE clause, after affinity: [None] is SQL's NULL. *)
Definition sql_eq (a b : value) : option bool :=
  match a, b with
  | VNull, _ | _, VNull => None
  | VInt x, VInt y => Some (x =? y)%Z
  | VText s, VText t => Some (String.eqb s t)
  | _, _ => Some false
  end.

(** The order of ORDER BY ... ASC: NULL first, then integers, then text. *)
Definition value_leb (a b : value) : bool :=
  match a, b with
  | VNull, _ => true
  | _, VNull => false
  | VInt x, VInt y => (x <=? y)%Z
  | VInt _, VText _ => true
  | VText _, VInt _ => false
  | VText s, VText t => String.leb s t
  end.

Definition value_le (a b : value) : Prop := value_leb a b = true.

Global Instance value_le_dec : RelDecision value_le :=
  fun a b => decide (value_leb a b = true).

(** *** LIKE *)

(** Text as [LIKE] reads it, a C string: the bytes before the first NUL. *)
Fixpoint c_string (s : string) : string :=
  match s with
  | EmptyString => EmptyString
  | String c s' =>
      if Ascii.eqb c Ascii.zero then EmptyString else String c (c_string s')
  end.

(** The bytes of one character: a lead byte (11xxxxxx) is followed by
    continuation bytes (10xxxxxx); any other byte is a character. *)
Definition is_lead (c : ascii) : bool := (192 <=? nat_of_ascii c)%nat.

Definition is_continuation (c : ascii) : bool :=
  ((128 <=? nat_of_ascii c) && (nat_of_ascii c <? 192))%nat.

Fixpoint skip_continuation (s : list ascii) : list ascii :=
  match s with
  | c :: s' => if is_continuation c then skip_continuation s' else s
  | [] => []
  end.

(** What follows the character that starts with the byte [d]. *)
Definition after_char (d : ascii) (s' : list ascii) : list ascii :=
  if is_lead d then skip_continuation s' else s'.

(** [like_chars p s]: the pattern [p] matches all of [s].  ['%'] stands for
    any run of characters, ['_'] for any one character, every other byte for
    itself up to ASCII case. *)
Fixpoint like_chars (p : list ascii) : list ascii -> bool :=
  match p with
  | [] => fun s => match s with [] => true | _ => false end
  | c :: p' =>
      if Ascii.eqb c "%" then
        fix skip (s : list ascii) : bool :=
          like_chars p' s
          || match s with
             | [] => false
             | _ :: s' => skip s'
             end
      else if Ascii.eqb c "_" then
        fun s => match s with [] => false | d :: s' => like_chars p' (after_char d s') end
      else
        fun s =>
          match s with
          | [] => false
          | d :: s' => Ascii.eqb (lower_ascii c) (lower_ascii d) && like_chars p' s'
          end
  end.

Definition text_of (v : value) : option string :=
  match v with
  | VNull => None
  | VInt n => Some (decimal n)
  | VText s => Some s
  end.

(** [x LIKE pattern]: NULL when either side is NULL; both sides are read as
    C strings. *)
Definition sql_like (x pattern : value) : option bool :=
  match text_of x, text_of pattern with
  | Some s, Some p =>
      Some (like_chars (list_ascii_of_string (c_string p))
                       (list_ascii_of_string (c_string s)))
  | _, _ => None
  end.

(** The longest pattern [LIKE] takes, in bytes
    (SQLITE_MAX_LIKE_PATTERN_LENGTH); on a longer one it raises an error. *)
Definition max_like_pattern : Z := 50000.

Definition pattern_too_long (p : value) : bool :=
  match p with
  | VText s => (max_like_pattern <? Z.of_nat (String.length s))%Z
  | _ => false
  end.

(** SQL's three-valued OR. *)
Definition sql_or (a b : option bool) : option bool :=
  match a, b with
  | Some true, _ | _, Some true => Some true
  | Some false, Some false => Some false
  | _, _ => None
  end.

(** *** Tables *)

(** A row is the tuple of its cells, in column order. *)
Abbreviation row := (list value).

Definition cell (r : row) (i : nat) : value := default VNull (r !! i).

Record column_def := ColumnDef {
  col_name : string;
  col_affinity : affinity;
  col_not_null : bool;
  col_primary_key : bool
}.

(** A table: its column definitions and its rows in key order, which is the
    order a SELECT without ORDER BY returns them in. *)
Record table := Table {
  tbl_columns : list column_def;
  tbl_rows : list row
}.

(** The catalog: the user tables by (lower-case) name. *)
Abbreviation database := (gmap string table).

(** Identifiers are compared up to ASCII case. *)
Definition same_name (a b : string) : bool := String.eqb (lower a) (lower b).

Definition find_table (db : database) (name : string) : option table :=
  db !! lower name.

Fixpoint index_where {A} (f : A -> bool) (l : list A) : option nat :=
  match l with
  | [] => None
  | x :: l' => if f x then Some 0%nat else S <$> index_where f l'
  end.

Definition is_rowid_name (name : string) : bool :=
  same_name name "rowid" || same_name name "oid" || same_name name "_rowid_".

(** A column identifier names a declared column; [rowid] (and its aliases)
    names the INTEGER PRIMARY KEY column.  An identifier that names nothing
    makes the engine reject the statement. *)
Definition resolve_column (cols : list column_def) (name : string) : option nat :=
  match index_where (fun c => same_name (col_name c) name) cols with
  | Some i => Some i
  | None =>
      if is_rowid_name name then index_where col_primary_key cols else None
  end.

(** *** WHERE clauses *)

Inductive expr :=
  | Equals (column : string) (operand : value)   (* column = operand *)
  | Like (column : string) (pattern : value)     (* column LIKE pattern *)
  | Or (a b : expr).                             (* a OR b *)

(** The clause as a function of the row; [None] when a column is unknown. *)
Fixpoint compile_expr (cols : list column_def) (e : expr)
  : option (row -> option bool) :=
  match e with
  | Equals c v =>
      i ← resolve_column cols c;
      d ← cols !! i;
      Some (fun r => sql_eq (cell r i) (apply_affinity (col_affinity d) v))
  | Like c p =>
      i ← resolve_column cols c;
      Some (fun r => sql_like (cell r i) p)
  | Or a b =>
      f ← compile_expr cols a;
      g ← compile_expr cols b;
      Some (fun r => sql_or (f r) (g r))
  end.

(** A row is selected when the clause is true (not false, not NULL). *)
Definition selected (f : row -> option bool) (r : row) : bool :=
  match f r with
  | Some true => true
  | _ => false
  end.

Definition compile_where (cols : list column_def) (w : option expr)
  : option (row -> bool) :=
  match w with
  | None => Some (fun _ => true)
  | Some e => selected <$> compile_expr cols e
  end.

(** A clause with a pattern too long for [LIKE].  (In the clauses of the
    handler every operand of OR has the same pattern, so that no operand is
    skipped before the one that raises.) *)
Fixpoint too_complex (e : expr) : bool :=
  match e with
  | Equals _ _ => false
  | Like _ p => pattern_too_long p
  | Or a b => too_complex a || too_complex b
  end.

Definition has_rows (rows : list row) : bool :=
  match rows with
  | [] => false
  | _ :: _ => true
  end.

(** The clause is evaluated on each row of the table, and [LIKE] raises on
    the first one: the statement fails unless the table is empty. *)
Definition where_raises (w : option expr) (rows : list row) : bool :=
  from_option too_complex false w && has_rows rows.

(** *** ORDER BY *)

Definition row_le (i : nat) (r1 r2 : row) : Prop :=
  value_le (cell r1 i) (cell r2 i).

Fixpoint insert_row (i : nat) (r : row) (l : list row) : list row :=
  match l with
  | [] => [r]
  | r' :: l' =>
      if value_leb (cell r i) (cell r' i) then r :: l else r' :: insert_row i r l'
  end.

(** Ascending by column [i]; rows that tie keep their table order. *)
Definition order_by (i : nat) (l : list row) : list row :=
  foldr (insert_row i) [] l.

(** *** Statements *)


(** The statements the handler issues.  Table and column names are the text
    the handler splices into the statement. *)
Inductive statement :=
  (* CREATE TABLE IF NOT EXISTS name (columns) *)
  | CreateTableIfNotExists (name : string) (columns : list column_def)
  (* INSERT INTO table VALUES (vals) *)
  | InsertValues (table : string) (vals : list value)
  (* UPDATE table SET c1=v1, ... WHERE where_ *)
  | Update (table : string) (set : list (string * value)) (where_ : expr)
  (* DELETE FROM table WHERE where_ *)
  | DeleteFrom (table : string) (where_ : expr)
  (* SELECT [DISTINCT] result_column FROM table [WHERE where_] [ORDER BY order] *)
  | Select (distinct : bool) (result_column : string) (table : string)
           (where_ : option expr) (order : option string).

(** What a statement does: the database after it, the rows it returns and
    the number of rows it changed (-1 for a SELECT, as [cursor.rowcount]). *)
Record effect := Effect {
  eff_db : database;
  eff_rows : list row;
  eff_rowcount : Z
}.

Definition keys (i : nat) (rows : list row) : list Z :=
  omap (fun r => match cell r i with VInt n => Some n | _ => None end) rows.

(** The key the engine gives a new row: one more than the largest in use, 1
    in an empty table.  (When the largest 64-bit key is in use the engine
    picks an unused key at random; what is stated of new rows is stated for
    tables whose next key fits 64 bits.) *)
Definition next_rowid (ks : list Z) : Z :=
  match ks with
  | [] => 1
  | k :: ks' => (1 + foldr Z.max k ks')%Z
  end.

(** The cell stored for value [v] in column [d] of a new row. *)
Definition store_cell (ks : list Z) (d : column_def) (v : value) : result value :=
  if col_primary_key d then
    match apply_affinity INTEGER v with
    | VNull => Ok (VInt (next_rowid ks))
    | VInt n => if bool_decide (n ∈ ks) then Raise IntegrityError else Ok (VInt n)
    | VText _ => Raise IntegrityError
    end
  else
    match apply_affinity (col_affinity d) v with
    | VNull => if col_not_null d then Raise IntegrityError else Ok VNull
    | w => Ok w
    end.

Fixpoint store_row (ks : list Z) (cols : list column_def) (vals : list value)
  : result row :=
  match cols, vals with
  | [], [] => Ok []
  | d :: cols', v :: vals' =>
      match store_cell ks d v with
      | Raise e => Raise e
      | Ok w =>
          match store_row ks cols' vals' with
          | Raise e => Raise e
          | Ok r => Ok (w :: r)
          end
      end
  | _, _ => Raise OperationalError
  end.

(** One assignment [c = v] of an UPDATE, resolved: the cell index and the
    value to store, or the constraint it violates. *)
Definition compile_assignment (cols : list column_def) (cv : string * value)
  : option (nat * result value) :=
  i ← resolve_column cols cv.1;
  d ← cols !! i;
  Some (i, match apply_affinity (col_affinity d) cv.2 with
           | VNull => if col_not_null d then Raise IntegrityError else Ok VNull
           | w => Ok w
           end).

Fixpoint compile_set (cols : list column_def) (set : list (string * value))
  : option (list (nat * result value)) :=
  match set with
  | [] => Some []
  | cv :: set' =>
      a ← compile_assignment cols cv;
      l ← compile_set cols set';
      Some (a :: l)
  end.

Fixpoint assign (l : list (nat * result value)) (r : row) : result row :=
  match l with
  | [] => Ok r
  | (i, Ok v) :: l' => assign l' (<[i := v]> r)
  | (_, Raise e) :: _ => Raise e
  end.

(** The rows after an UPDATE and how many were changed; the first violated
    constraint aborts the statement. *)
Fixpoint update_rows (sel : row -> bool) (l : list (nat * result value))
  (rows : list row) : result (list row * Z) :=
  match rows with
  | [] => Ok ([], 0%Z)
  | r :: rows' =>
      if sel r then
        match assign l r with
        | Raise e => Raise e
        | Ok r' =>
            match update_rows sel l rows' with
            | Raise e => Raise e
            | Ok (rs, n) => Ok (r' :: rs, (n + 1)%Z)
            end
        end
      else
        match update_rows sel l rows' with
        | Raise e => Raise e
        | Ok (rs, n) => Ok (r :: rs, n)
        end
  end.

(** The assignments give the INTEGER PRIMARY KEY (column [k]) a value. *)
Definition assigns_key (k : nat) (l : list (nat * result value)) : bool :=
  existsb (fun a => Nat.eqb a.1 k) l.

Definition is_integer (v : value) : bool :=
  match v with
  | VInt _ => true
  | _ => false
  end.

(** Every row has an integer in column [k], and no two rows the same. *)
Definition unique_keys (k : nat) (rows : list row) : bool :=
  forallb (fun r => is_integer (cell r k)) rows
  && bool_decide (NoDup ((fun r => cell r k) <$> rows)).

(** The rows of a table after an UPDATE that changed [n] rows to [rows]:
    when it gave rows a new key, the keys must be integers and stay unique,
    and the rows are kept in key order. *)
Definition rekeyed (cols : list column_def) (l : list (nat * result value))
    (n : Z) (rows : list row) : result (list row) :=
  match index_where col_primary_key cols with
  | Some k =>
      if (0 <? n)%Z && assigns_key k l then
        if unique_keys k rows then Ok (order_by k rows) else Raise IntegrityError
      else Ok rows
  | None => Ok rows
  end.

(** The result columns: [*] is the whole row, a column name that column. *)
Definition compile_result (cols : list column_def) (result_column : string)
  : option (row -> row) :=
  if String.eqb result_column "*" then Some (fun r => r)
  else i ← resolve_column cols result_column; Some (fun r => [cell r i]).

Definition compile_order (cols : list column_def) (order : option string)
  : option (list row -> list row) :=
  match order with
  | None => Some (fun l => l)
  | Some c => i ← resolve_column cols c; Some (order_by i)
  end.

Definition create_if_absent (name : string) (columns : list column_def)
    (db : database) : database :=
  match find_table db name with
  | Some _ => db
  | None => <[lower name := Table columns []]> db
  end.

Fixpoint operands (e : expr) : list value :=
  match e with
  | Equals _ v => [v]
  | Like _ p => [p]
  | Or a b => operands a ++ operands b
  end.

(** The values a statement carries. *)
Definition parameters (s : statement) : list value :=
  match s with
  | CreateTableIfNotExists _ _ => []
  | InsertValues _ vals => vals
  | Update _ set where_ => set.*2 ++ operands where_
  | DeleteFrom _ where_ => operands where_
  | Select _ _ _ where_ _ => from_option operands [] where_
  end.

Definition run (s : statement) (db : database) : result effect :=
  match s with
  | CreateTableIfNotExists name columns =>
      Ok (Effect (create_if_absent name columns db) [] (-1))
  | InsertValues name vals =>
      match find_table db name with
      | None => Raise OperationalError
      | Some t =>
          let ks :=
            match index_where col_primary_key (tbl_columns t) with
            | Some i => keys i (tbl_rows t)
            | None => []
            end in
          match store_row ks (tbl_columns t) vals with
          | Raise e => Raise e
          | Ok r =>
              Ok (Effect (<[lower name := Table (tbl_columns t) (tbl_rows t ++ [r])]> db)
                         [] 1)
          end
      end
  | Update name set where_ =>
      match find_table db name with
      | None => Raise OperationalError
      | Some t =>
          match compile_set (tbl_columns t) set,
                compile_expr (tbl_columns t) where_ with
          | Some l, Some f =>
              if too_complex where_ && has_rows (tbl_rows t)
              then Raise OperationalError
              else
                match update_rows (selected f) l (tbl_rows t) with
                | Raise e => Raise e
                | Ok (rows, n) =>
                    match rekeyed (tbl_columns t) l n rows with
                    | Raise e => Raise e
                    | Ok rows' =>
                        Ok (Effect (<[lower name := Table (tbl_columns t) rows']> db)
                                   [] n)
                    end
                end
          | _, _ => Raise OperationalError
          end
      end
  | DeleteFrom name where_ =>
      match find_table db name with
      | None => Raise OperationalError
      | Some t =>
          match compile_expr (tbl_columns t) where_ with
          | None => Raise OperationalError
          | Some f =>
              if too_complex where_ && has_rows (tbl_rows t)
              then Raise OperationalError
              else
                let rows := List.filter (fun r => negb (selected f r)) (tbl_rows t) in
                Ok (Effect (<[lower name := Table (tbl_columns t) rows]> db) []
                           (Z.of_nat (length (tbl_rows t)) - Z.of_nat (length rows)))
          end
      end
  | Select distinct result_column name where_ order =>
      match find_table db name with
      | None => Raise OperationalError
      | Some t =>
          match compile_result (tbl_columns t) result_column,
                compile_where (tbl_columns t) where_,
                compile_order (tbl_columns t) order with
          | Some proj, Some sel, Some sort =>
              if where_raises where_ (tbl_rows t)
              then Raise OperationalError
              else
                let rows := proj <$> sort (List.filter sel (tbl_rows t)) in
                Ok (Effect db (if distinct then remove_dups rows else rows) (-1))
          | _, _, _ => Raise OperationalError
          end
      end
  end.

End Sql.

(** ** Python objects and control *)

Module Py.
Import Sql.

(** What a method works on.
    - [committed], [pending]: [self.connection].  [committed] is the database
      file, which is what any reader of the file sees; [pending] is the view
      of the open transaction, when there is one.
    - [results], [rowcount]: [self.cursor], the one cursor all methods share:
      the rows of the last statement that are not fetched yet, and the count
      of rows it changed.
    - [log]: the messages written by [logger.exception].
    - [faults]: the storage failures to come, one flag per call that reaches
      the storage ([execute], a fetch, a commit of an open transaction,
      closing the cursor or the connection);
      [true] makes that call raise sqlite3.OperationalError. *)
Record state := State {
  committed : database;
  pending : option database;
  results : list row;
  rowcount : Z;
  log : list string;
  faults : list bool
}.

(** What the connection reads. *)
Definition view (st : state) : database :=
  default (committed st) (pending st).

(** A method body: it changes the state, yields rows (grouped by the fetch
    that brought them), and returns or raises. *)
Definition Py (A : Type) : Type := state -> state * list (list row) * result A.

Global Instance Py_ret : MRet Py := fun A a st => (st, [], Ok a).

Global Instance Py_bind : MBind Py := fun A B f m st =>
  match m st with
  | (st1, out1, Ok a) =>
      match f a st1 with
      | (st2, out2, r) => (st2, out1 ++ out2, r)
      end
  | (st1, out1, Raise e) => (st1, out1, Raise e)
  end.

Definition raise {A} (e : exn) : Py A := fun st => (st, [], Raise e).

(** [try: body except Exception: handler] *)
Definition try_except {A} (body handler : Py A) : Py A := fun st =>
  match body st with
  | (st1, out1, Ok a) => (st1, out1, Ok a)
  | (st1, out1, Raise _) =>
      match handler st1 with
      | (st2, out2, r) => (st2, out1 ++ out2, r)
      end
  end.

(** [for row in rows: yield row] *)
Definition yield_rows (rows : list row) : Py unit := fun st => (st, [rows], Ok tt).

(** [logger.exception(msg)] *)
Definition logger_exception (msg : string) : Py unit := fun st =>
  (State (committed st) (pending st) (results st) (rowcount st)
         (log st ++ [msg]) (faults st), [], Ok tt).

(** [entry[i]] on a tuple. *)
Definition index (entry : list value) (i : nat) : Py value :=
  match entry !! i with
  | Some v => mret v
  | None => raise IndexError
  end.

(** A call that reaches the storage takes the next fault flag. *)
Definition storage_call : Py unit := fun st =>
  match faults st with
  | [] => (st, [], Ok tt)
  | fail :: rest =>
      (State (committed st) (pending st) (results st) (rowcount st) (log st) rest,
       [], if fail then Raise OperationalError else Ok tt)
  end.

(** INSERT, UPDATE and DELETE open a transaction when none is open. *)
Definition is_dml (s : statement) : bool :=
  match s with
  | InsertValues _ _ | Update _ _ _ | DeleteFrom _ _ => true
  | _ => false
  end.

Definition begin_if_dml (s : statement) : Py unit := fun st =>
  match pending st with
  | None =>
      if is_dml s
      then (State (committed st) (Some (committed st)) (results st) (rowcount st)
                  (log st) (faults st), [], Ok tt)
      else (st, [], Ok tt)
  | Some _ => (st, [], Ok tt)
  end.

(** The statement itself, on the connection's view.  Inside a transaction the
    change stays pending; outside one (a CREATE TABLE when nothing is
    pending) it is committed at once. *)
Definition run_statement (s : statement) : Py unit := fun st =>
  match run s (view st) with
  | Raise e => (st, [], Raise e)
  | Ok eff =>
      match pending st with
      | Some _ =>
          (State (committed st) (Some (eff_db eff)) (eff_rows eff) (eff_rowcount eff)
                 (log st) (faults st), [], Ok tt)
      | None =>
          (State (eff_db eff) None (eff_rows eff) (eff_rowcount eff)
                 (log st) (faults st), [], Ok tt)
      end
  end.

(** Binding the values of the statement. *)
Definition bind_parameters (s : statement) : Py unit :=
  if forallb bindable (parameters s) then mret tt else raise OverflowError.

(** [execute] first drops what the cursor held: when it raises, the cursor
    has no rows and its rowcount is -1. *)
Definition reset_cursor : Py unit := fun st =>
  (State (committed st) (pending st) [] (-1) (log st) (faults st), [], Ok tt).

(** [self.cursor.execute(s)] *)
Definition execute (s : statement) : Py unit :=
  reset_cursor ;;
  storage_call ;; begin_if_dml s ;; bind_parameters s ;; run_statement s.

(** [self.connection.commit()]: nothing to do without an open transaction. *)
Definition commit : Py unit := fun st =>
  match pending st with
  | None => (st, [], Ok tt)
  | Some db =>
      match storage_call st with
      | (st1, _, Ok _) =>
          (State db None (results st1) (rowcount st1) (log st1) (faults st1), [], Ok tt)
      | (st1, _, Raise e) => (st1, [], Raise e)
      end
  end.

(** [self.connection.rollback()] *)
Definition rollback : Py unit := fun st =>
  (State (committed st) None (results st) (rowcount st) (log st) (faults st),
   [], Ok tt).

(** [with self.connection: body]: commit when the body ends normally, roll
    back when it raises (and when that commit fails); the exception goes on. *)
Definition with_connection {A} (body : Py A) : Py A := fun st =>
  match body st with
  | (st1, out1, Ok a) =>
      match commit st1 with
      | (st2, _, Ok _) => (st2, out1, Ok a)
      | (st2, _, Raise e) => ((rollback st2).1.1, out1, Raise e)
      end
  | (st1, out1, Raise e) => ((rollback st1).1.1, out1, Raise e)
  end.

(** The next rows of the cursor: [count] of them, all of them for a [count]
    below 1 (the loop of the sqlite3 module stops when its counter equals
    [count]). *)
Definition next_rows (count : Z) : Py (list row) := fun st =>
  let n := if (0 <? count)%Z then Z.to_nat count else length (results st) in
  (State (committed st) (pending st) (drop n (results st)) (rowcount st)
         (log st) (faults st), [], Ok (take n (results st))).

(** [self.cursor.fetchmany(count)]: [count] is passed as a C [int]. *)
Definition fetchmany (count : Z) : Py (list row) :=
  if ((- 2 ^ 31 <=? count) && (count <? 2 ^ 31))%Z
  then storage_call ;; next_rows count
  else raise OverflowError.

Definition next_row : Py (option row) := fun st =>
  (State (committed st) (pending st) (tail (results st)) (rowcount st)
         (log st) (faults st), [], Ok (head (results st))).

(** [self.cursor.fetchone()] *)
Definition fetchone : Py (option row) :=
  storage_call ;; next_row.

(** [self.cursor.fetchall()] *)
Definition fetchall : Py (list row) :=
  storage_call ;; next_rows 0.


(** The text of a string literal as the engine reads it, from the characters
    that follow its opening quote up to the quote the statement closes it
    with: two quote characters in a row stand for one.  A single quote
    character ends the literal early and leaves the rest of the value as SQL
    text, which the engine rejects as it does for a value such as
    [Ocean's Eleven].  (A value crafted so that the rest reads on as SQL is
    not followed: what the development states of [filter_entries] on a given
    value, it states of values without a quote character.) *)
Fixpoint read_literal (s : string) : option string :=
  match s with
  | EmptyString => Some EmptyString
  | String c s' =>
      if Ascii.eqb c "'" then
        match s' with
        | String c' s'' =>
            if Ascii.eqb c' "'" then String c <$> read_literal s'' else None
        | EmptyString => None
        end
      else String c <$> read_literal s'
  end.

(** The operand written [('{value}')] in the text of a statement.  The
    sqlite3 module refuses a statement text that holds the character NUL, and
    the engine one it cannot read; either way it is [execute] that raises,
    which leaves the cursor reset. *)
Definition spliced_literal (text : string) : Py value :=
  if bool_decide (Ascii.zero ∈ list_ascii_of_string text)
  then reset_cursor ;; raise ValueError
  else
    match read_literal text with
    | Some s => mret (VText s)
    | None => reset_cursor ;; raise OperationalError
    end.

(** The loop every streaming method runs after [execute]:
<<
    while True:
        results = self.cursor.fetchmany(count)
        if not results:
            break
        for row in results:
            yield row
>>
    [fuel] bounds the number of fetches; [fetch_all] gives it one more than
    the number of rows to fetch, which the loop never uses up. *)
Fixpoint fetch_loop (fuel : nat) (count : Z) : Py unit :=
  match fuel with
  | O => mret tt
  | S fuel' =>
      rows ← fetchmany count;
      match rows with
      | [] => mret tt
      | _ => yield_rows rows ;; fetch_loop fuel' count
      end
  end.

Definition fetch_all (count : Z) : Py unit := fun st =>
  fetch_loop (S (length (results st))) count st.

(** *** A generator consumed by a [for] loop

    [for row in <streaming method>: body] runs the generator up to each
    [yield], then the body of the loop, on the one cursor they share.  The
    generator is
<<
    try:
        with self.connection:
            self.cursor.execute(s)
            <the fetch loop>
    except Exception:
        logger.exception(msg)
>>
    so an exception in its own code rolls back, is logged and ends the loop
    normally, while an exception in the body of the loop leaves the loop
    (the generator is then closed, which rolls back). *)

Definition catch {A} (m : Py A) : Py (result A) := fun st =>
  match m st with
  | (st1, out1, r) => (st1, out1, Ok r)
  end.

(** A piece of the generator's own code: [None] when it raised. *)
Definition generator_step {A} (m : Py A) (msg : string) : Py (option A) :=
  r ← catch m;
  match r with
  | Ok a => mret (Some a)
  | Raise _ => rollback ;; logger_exception msg ;; mret None
  end.

(** The body of the loop on each row of a page; [acc] is what the body
    carries from one round to the next. *)
Fixpoint for_each {B} (body : B -> row -> Py B) (acc : B) (rows : list row)
  : Py B :=
  match rows with
  | [] => mret acc
  | r :: rows' => acc' ← body acc r; for_each body acc' rows'
  end.

(** The fetch loop with the body of the [for] at its [yield]; [fuel] bounds
    the number of fetches. *)
Fixpoint for_fetched {B} (fuel : nat) (count : Z) (msg : string)
    (body : B -> row -> Py B) (acc : B) : Py B :=
  match fuel with
  | O => mret acc
  | S fuel' =>
      page ← generator_step (fetchmany count) msg;
      match page with
      | None => mret acc
      | Some [] => generator_step (with_connection (mret tt)) msg ;; mret acc
      | Some rows =>
          r ← catch (for_each body acc rows);
          match r with
          | Ok acc' => for_fetched fuel' count msg body acc'
          | Raise e => rollback ;; raise e
          end
      end
  end.

Definition for_in_stream {B} (fuel : nat) (s : statement) (count : Z)
    (msg : string) (body : B -> row -> Py B) (acc : B) : Py B :=
  started ← generator_step (execute s) msg;
  match started with
  | None => mret acc
  | Some _ => for_fetched fuel count msg body acc
  end.

(** *** COUNT *)

(** [SELECT COUNT( * ) FROM table [WHERE where_]]: one row, which holds the
    number of rows selected. *)
Definition run_count (table : string) (where_ : option expr) (db : database)
  : result (list row) :=
  match run (Select false "*" table where_ None) db with
  | Ok eff => Ok [[VInt (Z.of_nat (length (eff_rows eff)))]]
  | Raise e => Raise e
  end.

Definition run_count_statement (table : string) (where_ : option expr)
  : Py unit := fun st =>
  match run_count table where_ (view st) with
  | Raise e => (st, [], Raise e)
  | Ok rows =>
      (State (committed st) (pending st) rows (-1) (log st) (faults st), [], Ok tt)
  end.

(** [self.cursor.execute] of that statement. *)
Definition execute_count (table : string) (where_ : option expr) : Py unit :=
  reset_cursor ;;
  storage_call ;;
  bind_parameters (Select false "*" table where_ None) ;;
  run_count_statement table where_.

(** [row[0]] on what [fetchone] returned.  (On None Python raises TypeError;
    every handler treats all exceptions alike.) *)
Definition first_of (fetched : option row) : Py value :=
  match fetched with
  | Some r => index r 0
  | None => raise IndexError
  end.

(** *** What a method leaves of the store *)

(** [m] changes nothing in the store: run with no transaction open, it
    leaves the database file as it was and no transaction open. *)
Definition read_only {A} (m : Py A) : Prop :=
  forall st, pending st = None ->
    committed (m st).1.1 = committed st /\ pending (m st).1.1 = None.

(** [m], which runs the statement [s] and logs [msg] on an exception, does
    all of [s] or nothing: run with no transaction open, either it logs
    nothing and the database file is the one [s] makes, or it logs [msg] and
    the database file is as it was.  No transaction stays open. *)
Definition all_or_nothing (m : Py unit) (s : statement) (msg : string) : Prop :=
  forall st, pending st = None ->
    pending (m st).1.1 = None
    /\ ((log (m st).1.1 = log st
         /\ exists eff, run s (committed st) = Ok eff
                        /\ committed (m st).1.1 = eff_db eff)
        \/ (log (m st).1.1 = log st ++ [msg]
            /\ committed (m st).1.1 = committed st)).

(** *** Failures caught and logged *)

(** From [st] to [st'] every storage failure is accounted for: of the fault
    flags taken in between ([used], one per call that reached the storage),
    none is set unless something was logged ([msgs]), or unless [raised]:
    the exception is still on its way up. *)
Definition accounted (st st' : state) (raised : Prop) : Prop :=
  exists (used : list bool) (msgs : list string),
    faults st = used ++ faults st'
    /\ log st' = log st ++ msgs
    /\ (true ∈ used -> msgs <> [] \/ raised).

Definition accounts {A} (m : Py A) : Prop :=
  forall st, accounted st (m st).1.1 (exists e, (m st).2 = Raise e).


End Py.

(** ** The handler *)

Module Handler.
Import Sql Py.

(** The columns [create_tables] declares. *)
Definition media_types_columns : list column_def :=
  [ ColumnDef "id" INTEGER true true;
    ColumnDef "type" VARCHAR false false ].

Definition genres_columns : list column_def :=
  [ ColumnDef "id" INTEGER false true;
    ColumnDef "genre" VARCHAR false false;
    ColumnDef "description" VARCHAR false false;
    ColumnDef "examples" VARCHAR false false ].

Definition media_columns : list column_def :=
  [ ColumnDef "id" INTEGER false true;
    ColumnDef "title" VARCHAR true false;
    ColumnDef "description" VARCHAR false false;
    ColumnDef "age_rating" VARCHAR false false;
    ColumnDef "genre" VARCHAR false false;
    ColumnDef "season" INTEGER false false;
    ColumnDef "disc_count" INTEGER false false;
    ColumnDef "media_type" VARCHAR false false;
    ColumnDef "play_time" INTEGER false false;
    ColumnDef "notes" VARCHAR false false ].

(** The cells of a media row (what the callers read as [entry[i]]). *)
Definition m_id (r : row) : value := cell r 0.
Definition m_title (r : row) : value := cell r 1.
Definition m_description (r : row) : value := cell r 2.
Definition m_age_rating (r : row) : value := cell r 3.
Definition m_genre (r : row) : value := cell r 4.
Definition m_season (r : row) : value := cell r 5.
Definition m_disc_count (r : row) : value := cell r 6.
Definition m_media_type (r : row) : value := cell r 7.
Definition m_play_time (r : row) : value := cell r 8.
Definition m_notes (r : row) : value := cell r 9.

(** The three tables of the store. *)
Definition schema : list (string * list column_def) :=
  [ ("media_types", media_types_columns);
    ("genres", genres_columns);
    ("media", media_columns) ].

(** A database after the three CREATE TABLE IF NOT EXISTS statements. *)
Definition with_schema (db : database) : database :=
  create_if_absent "media" media_columns
    (create_if_absent "genres" genres_columns
       (create_if_absent "media_types" media_types_columns db)).


(** *** Media table *)

Definition add_entry (title description age_rating genre season disc_count
                      media_type play_time notes : value) : Py unit :=
  try_except
    (with_connection
       (execute (InsertValues "media"
                   [VNull; title; description; age_rating; genre; season;
                    disc_count; media_type; play_time; notes]) ;;
        commit))
    (logger_exception "Error in MCDHandler.add_entry").

(** The debug line that reads [entry[1]] comes before the [try]. *)
Definition delete_entry (entry : list value) : Py unit :=
  index entry 1 ;;
  try_except
    (with_connection
       (rowid ← index entry 0;
        execute (DeleteFrom "media" (Equals "rowid" rowid))))
    (logger_exception "Error in MDBHandler.delete_entry").

Definition update_entry (table : string)
    (rowid title description age_rating genre season disc_count media_type
     play_time notes : value) : Py unit :=
  try_except
    (with_connection
       (execute (Update table
                   [("title", title); ("description", description);
                    ("age_rating", age_rating); ("genre", genre);
                    ("season", season); ("disc_count", disc_count);
                    ("media_type", media_type); ("play_time", play_time);
                    ("notes", notes)]
                   (Equals "id" rowid)) ;;
        commit))
    (logger_exception "Error in MDBHandler.update_entry").

(** *** Entries by classification *)

Definition convert_entries (column : string) (old_value new_value : value)
  : Py unit :=
  try_except
    (with_connection
       (execute (Update "media" [(column, new_value)] (Equals column old_value)) ;;
        commit))
    (logger_exception "Error in MDBHandler.convert_entries").

(** *** Genres table *)

Definition add_genre (genre description examples : value) : Py unit :=
  try_except
    (with_connection
       (execute (InsertValues "genres" [VNull; genre; description; examples]) ;;
        commit))
    (logger_exception "Error in MDBHandler.add_genre").

Definition delete_genre (entry : list value) : Py unit :=
  try_except
    (with_connection
       (old_value ← index entry 1;
        convert_entries "genre" old_value (VText "-DELETED GENRE-") ;;
        rowid ← index entry 0;
        execute (DeleteFrom "genres" (Equals "rowid" rowid)) ;;
        commit))
    (logger_exception "Error in MDBHandler.delete_genre").

Definition update_genre (rowid genre description examples : value) : Py unit :=
  try_except
    (with_connection
       (execute (Update "genres"
                   [("genre", genre); ("description", description);
                    ("examples", examples)]
                   (Equals "rowid" rowid)) ;;
        commit))
    (logger_exception "Error in MDBHandler.update_genre").

(** *** Media types table *)

Definition add_media_type (media_type : value) : Py unit :=
  try_except
    (with_connection
       (execute (InsertValues "media_types" [VNull; media_type]) ;;
        commit))
    (logger_exception "Error in MDBHandler.add_media_type").

Definition delete_media_type (entry : list value) : Py unit :=
  try_except
    (with_connection
       (old_value ← index entry 1;
        convert_entries "media_type" old_value (VText "-DELETED MEDIA TYPE-") ;;
        rowid ← index entry 0;
        execute (DeleteFrom "media_types" (Equals "rowid" rowid)) ;;
        commit))
    (logger_exception "Error in MDBHandler.delete_media_types").

Definition update_media_type (rowid media_type : value) : Py unit :=
  try_except
    (with_connection
       (execute (Update "media_types" [("type", media_type)]
                   (Equals "rowid" rowid)) ;;
        commit))
    (logger_exception "Error in MDBHandler.update_media_type").

(** *** Search functions

    The four streaming methods are generators; a run of one of them here is a
    full iteration by the caller, with no other call to the handler in
    between.  The rows it yields are the second component of the run. *)

Definition return_all_entries (table column : string) (count : Z) : Py unit :=
  try_except
    (with_connection
       (execute (Select false column table None (Some column)) ;;
        fetch_all count))
    (logger_exception "Error in MDBHandler.return_all_entries").

Definition return_distinct_entries (table column : string) (count : Z) : Py unit :=
  try_except
    (with_connection
       (execute (Select true column table None (Some column)) ;;
        fetch_all count))
    (logger_exception "Error in MDBHandler.return_distinct_entries").

Definition filter_entries (table column value : string) (count : Z) : Py unit :=
  try_except
    (with_connection
       (operand ← spliced_literal value;
        execute (Select false "*" table (Some (Equals column operand))
                   (Some column)) ;;
        fetch_all count))
    (logger_exception "Error in MDBHandler.filter_entries").

Definition search (query : string) (column : option string) (count : Z)
  : Py unit :=
  let pattern := VText ("%" ++ query ++ "%")%string in
  try_except
    (with_connection
       match column with
       | None =>
           execute (Select false "*" "media"
                      (Some (Or (Or (Or (Like "title" pattern)
                                        (Like "description" pattern))
                                    (Like "genre" pattern))
                                (Like "notes" pattern)))
                      None) ;;
           fetch_all count
       | Some c =>
           execute (Select false "*" "media" (Some (Like c pattern)) None) ;;
           fetch_all count
       end)
    (logger_exception "Error in MDBHandler.search").

(** Returns the row, or [None]: when no row matches, and also (by falling off
    the end of the method) when the [except] branch ran. *)
Definition select_one_entry (table column : string) (value : value)
  : Py (option row) :=
  try_except
    (with_connection
       (execute (Select false "*" table (Some (Equals column value)) None) ;;
        fetchone))
    (logger_exception "Error in MDBHandler.select_one_entry" ;; mret None).

(** *** Other functions *)

(** [Some true], [Some false], or [None] when the [except] branch ran. *)
Definition check_if_entry_exists (table column : string) (entry : value)
  : Py (option bool) :=
  try_except
    (with_connection
       (execute (Select false "*" table (Some (Equals column entry)) None) ;;
        rows ← fetchall;
        match rows with
        | [] => mret (Some false)
        | _ => mret (Some true)
        end))
    (logger_exception "Error in MCDHandler.check_if_entry_exists" ;; mret None).


Definition create_tables : Py unit :=
  try_except
    (with_connection
       (execute (CreateTableIfNotExists "media_types" media_types_columns) ;;
        execute (CreateTableIfNotExists "genres" genres_columns) ;;
        execute (CreateTableIfNotExists "media" media_columns) ;;
        commit))
    (logger_exception "Error in MDBHandler.create_tables").

(** [str(v)], as an f-string formats a value. *)
Definition py_str (v : value) : string :=
  match v with
  | VNull => "None"
  | VInt n => decimal n
  | VText s => s
  end.

Definition newline : string := String (ascii_of_nat 10) EmptyString.

(** [s.rstrip(chars)] *)
Fixpoint rstrip (chars : list ascii) (s : string) : string :=
  match s with
  | EmptyString => EmptyString
  | String c s' =>
      match rstrip chars s' with
      | EmptyString =>
          if bool_decide (c ∈ chars) then EmptyString else String c EmptyString
      | t => String c t
      end
  end.

(** One round of the loop of [count_entries]. *)
Definition count_entries_round (output : string) (media_type : row) : Py string :=
  type ← index media_type 0;
  execute_count "media" (Some (Equals "media_type" type)) ;;
  fetched ← fetchone;
  count ← first_of fetched;
  mret (output ++ py_str type ++ ": " ++ py_str count ++ ", ")%string.

(** [count_entries], its loop given [fuel] fetches. *)
Definition count_entries_with (fuel : nat) : Py (option string) :=
  try_except
    (output ← with_connection
       (execute_count "media" None ;;
        fetched ← fetchone;
        total ← first_of fetched;
        for_in_stream fuel
          (Select true "media_type" "media" None (Some "media_type")) 1000
          "Error in MDBHandler.return_distinct_entries"
          count_entries_round
          ("Total Media Count: " ++ py_str total ++ " entries" ++ newline)%string);
     mret (Some (rstrip [","%char; " "%char] output)))
    (logger_exception "Error in MDBHandler.count_entries" ;; mret None).

(** Returns the summary, or [None] when the [except] branch ran.  The loop
    goes over [return_distinct_entries]; each round leaves the shared cursor
    without rows, so the fetch after the first page ends the loop: two
    fetches are all it can make. *)
Definition count_entries : Py (option string) := count_entries_with 2.

(** The distinct media types in ascending order, as
    [return_distinct_entries] reads them from the media rows. *)
Definition media_types_of (rows : list row) : list value :=
  remove_dups (m_media_type <$> order_by 7 rows).

(** The number of rows of a media type; a row without a type has NULL there
    and is counted under no type. *)
Definition entries_of_type (rows : list row) (v : value) : Z :=
  Z.of_nat (length (List.filter
                      (fun r => bool_decide (m_media_type r = v /\ v <> VNull))
                      rows)).

(** The line of the summary for one media type. *)
Definition summary_line (rows : list row) (v : value) : string :=
  (py_str v ++ ": " ++ decimal (entries_of_type rows v) ++ ", ")%string.

(** The summary of a media table: the total, then a line for each of its
    first 1000 media types in ascending order, without the last separator. *)
Definition summary_of (rows : list row) : string :=
  rstrip [","%char; " "%char]
    ("Total Media Count: " ++ decimal (Z.of_nat (length rows)) ++ " entries"
       ++ newline
       ++ foldr (fun v s => summary_line rows v ++ s) EmptyString
            (take 1000 (media_types_of rows)))%string.


End Handler.

(** ** Words of the specification *)

Module Spec.
Import Sql.

(** [field] contains [query] as a case-insensitive substring. *)
Definition contains_ci (field query : string) : Prop :=
  exists before after : string,
    lower field = (before ++ lower query ++ after)%string.

(** The same for a cell: a NULL cell contains nothing. *)
Definition cell_contains (v : value) (query : string) : Prop :=
  exists s, text_of v = Some s /\ contains_ci s query.

(** The same for a cell as the engine's [LIKE] reads it: up to its first
    NUL character. *)
Definition cell_holds (v : value) (query : string) : Prop :=
  exists s, text_of v = Some s /\ contains_ci (c_string s) query.

(** A text without the character NUL. *)
Definition nul_free (text : string) : Prop :=
  Ascii.zero ∉ list_ascii_of_string text.

(** A query whose pattern [%query%] is within the length [LIKE] takes. *)
Definition fits_like (query : string) : Prop :=
  (Z.of_nat (String.length query) + 2 <= max_like_pattern)%Z.

(** A query with none of the two characters [LIKE] reads as wildcards. *)
Definition wildcard_free (query : string) : Prop :=
  Forall (fun c => c <> "%"%char /\ c <> "_"%char) (list_ascii_of_string query).


End Spec.

(** ** Example stores *)

Module Examples.
Import Sql Py Handler.

(** A new database file, nothing pending, no failure to come. *)
Definition fresh : state := State ∅ None [] (-1) [] [].

(** The same store with storage failures to come. *)
Definition with_faults (fs : list bool) (st : state) : state :=
  State (committed st) (pending st) (results st) (rowcount st) (log st) fs.

Definition heat : list value :=
  [VInt 1; VText "Heat"; VText EmptyString; VText "15"; VText "Action"; VInt 0; VInt 1;
   VText "DVD"; VInt 170; VText EmptyString].

Definition oceans : list value :=
  [VInt 2; VText "Ocean's Eleven"; VText EmptyString; VText "12"; VText "Crime"; VInt 0;
   VInt 1; VText "DVD"; VInt 116; VText EmptyString].

Definition action : list value := [VInt 1; VText "Action"; VText EmptyString; VText EmptyString].

(** The store after: create the tables, add the genre Action, add two
    entries. *)
Definition catalogue : state :=
  ((create_tables ;;
    add_genre (VText "Action") (VText EmptyString) (VText EmptyString) ;;
    add_entry (VText "Heat") (VText EmptyString) (VText "15") (VText "Action") (VInt 0)
              (VInt 1) (VText "DVD") (VInt 170) (VText EmptyString) ;;
    add_entry (VText "Ocean's Eleven") (VText EmptyString) (VText "12") (VText "Crime")
              (VInt 0) (VInt 1) (VText "DVD") (VInt 116) (VText EmptyString)) fresh).1.1.

Definition deleted_genre : list value :=
  [VInt 1; VText "-DELETED GENRE-"; VText EmptyString; VText EmptyString].

(** Then: delete the genre Action, and add a genre under the name the
    deleted one left in the entries. *)
Definition relabelled : state :=
  ((delete_genre action ;;
    add_genre (VText "-DELETED GENRE-") (VText EmptyString) (VText EmptyString)) catalogue).1.1.

Definition rows_of (table : string) (st : state) : option (list row) :=
  tbl_rows <$> find_table (committed st) table.

Definition dvd : list value := [VInt 1; VText "DVD"].

(** The store [catalogue] after the media type DVD is added. *)
Definition typed : state := (add_media_type (VText "DVD") catalogue).1.1.

End Examples.

(** * Properties *)

Import Sql Py Handler Spec Examples.

Local Arguments run : simpl never.

(** A clause without [LIKE] is not too complex for the engine. *)
Ltac plain_clause := cbn [where_raises too_complex from_option andb orb].

(** ** Lists *)

Section Lists.
Context {A : Type}.

Lemma filter_none (f : A -> bool) (l : list A) :
  (forall x, x ∈ l -> f x = false) -> List.filter f l = [].
Proof.
  induction l as [|x l IH]; intros H; simpl; [done|].
  rewrite (H x) by left. apply IH. intros y Hy. apply H. by right.
Qed.

Lemma filter_all (l : list A) : List.filter (fun _ => true) l = l.
Proof. induction l as [|x l IH]; simpl; [done | by rewrite IH]. Qed.

Lemma filter_sublist (f : A -> bool) (l : list A) : sublist (List.filter f l) l.
Proof.
  induction l as [|x l IH]; simpl; [constructor|].
  destruct (f x); by constructor.
Qed.

Lemma elem_of_filter (f : A -> bool) (l : list A) (x : A) :
  x ∈ List.filter f l <-> x ∈ l /\ f x = true.
Proof. rewrite !list_elem_of_In. apply List.filter_In. Qed.

End Lists.

(** ** Text and LIKE *)

Section Text.

Lemma chars_app (a b : string) :
  list_ascii_of_string (a ++ b)%string
  = list_ascii_of_string a ++ list_ascii_of_string b.
Proof. induction a as [|c a IH]; simpl; [done | by rewrite IH]. Qed.

Lemma chars_lower (a : string) :
  list_ascii_of_string (lower a) = lower_ascii <$> list_ascii_of_string a.
Proof. induction a as [|c a IH]; simpl; [done | by rewrite IH]. Qed.

Lemma chars_inj (a b : string) :
  list_ascii_of_string a = list_ascii_of_string b -> a = b.
Proof.
  intros H.
  rewrite <- (string_of_list_ascii_of_string a), <- (string_of_list_ascii_of_string b).
  by rewrite H.
Qed.

Lemma like_percent_cons p c s :
  like_chars ("%"%char :: p) (c :: s)
  = like_chars p (c :: s) || like_chars ("%"%char :: p) s.
Proof. reflexivity. Qed.

Lemma like_percent_nil p : like_chars ("%"%char :: p) [] = like_chars p [].
Proof. simpl. apply orb_false_r. Qed.

(** A leading ['%'] lets the rest of the pattern match any suffix. *)
Lemma like_percent p s :
  like_chars ("%"%char :: p) s = true <->
  exists s1 s2, s = s1 ++ s2 /\ like_chars p s2 = true.
Proof.
  induction s as [|c s IH].
  - rewrite like_percent_nil. split.
    + intros H. exists [], []. auto.
    + intros (s1 & s2 & E & H). symmetry in E.
      apply app_eq_nil in E as [_ ->]. exact H.
  - rewrite like_percent_cons, orb_true_iff, IH. split.
    + intros [H | (s1 & s2 & -> & H)].
      * exists [], (c :: s). auto.
      * exists (c :: s1), s2. auto.
    + intros (s1 & s2 & E & H). destruct s1 as [|d s1]; simpl in E.
      * left. subst s2. exact H.
      * right. injection E as -> ->. eauto.
Qed.

Lemma like_char c p s :
  c <> "%"%char -> c <> "_"%char ->
  like_chars (c :: p) s =
  match s with
  | [] => false
  | d :: s' => Ascii.eqb (lower_ascii c) (lower_ascii d) && like_chars p s'
  end.
Proof.
  intros H1 H2. simpl.
  destruct (Ascii.eqb_spec c "%"); [done|].
  destruct (Ascii.eqb_spec c "_"); [done|].
  reflexivity.
Qed.

(** Plain characters followed by ['%'] match a prefix, up to case. *)
Lemma like_prefix q s :
  Forall (fun c => c <> "%"%char /\ c <> "_"%char) q ->
  like_chars (q ++ ["%"%char]) s = true <->
  exists s1 s2, s = s1 ++ s2 /\ lower_ascii <$> s1 = lower_ascii <$> q.
Proof.
  intros Hq. revert s. induction Hq as [|c q [Hc1 Hc2] Hq IH]; intros s.
  - simpl app. rewrite like_percent. split.
    + intros _. exists [], s. auto.
    + intros _. exists s, []. split; [by rewrite app_nil_r | done].
  - simpl app. rewrite like_char by done. destruct s as [|d s].
    + split; [done|]. intros (s1 & s2 & E & H). destruct s1; done.
    + rewrite andb_true_iff, IH. split.
      * intros [Hcd (s1 & s2 & -> & H)]. exists (d :: s1), s2. split; [done|].
        simpl. f_equal; [|done]. symmetry. by apply Ascii.eqb_eq.
      * intros (s1 & s2 & E & H). destruct s1 as [|d' s1]; [done|].
        injection E as -> ->. simpl in H. injection H as H1 H2. split.
        -- apply Ascii.eqb_eq. done.
        -- eauto.
Qed.

Lemma like_infix q s :
  Forall (fun c => c <> "%"%char /\ c <> "_"%char) q ->
  like_chars ("%"%char :: q ++ ["%"%char]) s = true <->
  exists s0 s1 s2, s = s0 ++ s1 ++ s2 /\ lower_ascii <$> s1 = lower_ascii <$> q.
Proof.
  intros Hq. rewrite like_percent. split.
  - intros (s0 & t & -> & H).
    apply like_prefix in H as (s1 & s2 & -> & H); [|done]. eauto.
  - intros (s0 & s1 & s2 & -> & H). exists s0, (s1 ++ s2). split; [done|].
    apply like_prefix; eauto.
Qed.

Lemma contains_ci_chars (field query : string) :
  contains_ci field query <->
  exists s0 s1 s2, list_ascii_of_string field = s0 ++ s1 ++ s2
    /\ lower_ascii <$> s1 = lower_ascii <$> list_ascii_of_string query.
Proof.
  unfold contains_ci. split.
  - intros (b & a & E). apply (f_equal list_ascii_of_string) in E.
    rewrite !chars_app, !chars_lower in E.
    set (f := list_ascii_of_string field) in *.
    set (q := list_ascii_of_string query) in *.
    set (lb := list_ascii_of_string b) in *.
    exists (take (length lb) f), (take (length q) (drop (length lb) f)),
           (drop (length q) (drop (length lb) f)).
    split.
    + by rewrite !take_drop.
    + rewrite fmap_take, fmap_drop, E.
      rewrite drop_app_length. rewrite <- (length_fmap lower_ascii q).
      by rewrite take_app_length.
  - intros (s0 & s1 & s2 & E & H).
    exists (string_of_list_ascii (lower_ascii <$> s0)),
           (string_of_list_ascii (lower_ascii <$> s2)).
    apply chars_inj.
    rewrite !chars_app, !chars_lower, !list_ascii_of_string_of_list_ascii.
    by rewrite E, !fmap_app, H.
Qed.

(** The pattern ["%query%"] of [search], for a query without wildcards. *)
Lemma like_contains (field query : string) :
  wildcard_free query ->
  like_chars (list_ascii_of_string ("%" ++ query ++ "%")%string)
             (list_ascii_of_string field) = true
  <-> contains_ci field query.
Proof.
  intros Hq. rewrite contains_ci_chars.
  change ("%" ++ query ++ "%")%string with (String "%" (query ++ "%"))%string.
  simpl list_ascii_of_string at 1. rewrite chars_app.
  simpl (list_ascii_of_string "%"). by apply like_infix.
Qed.

Lemma contains_ci_occurs (field query : string) (c : ascii) :
  contains_ci field query ->
  c ∈ list_ascii_of_string (lower query) -> c ∈ list_ascii_of_string (lower field).
Proof. intros (b & a & ->). rewrite !chars_app. set_solver. Qed.

Lemma sql_or_true a b : sql_or a b = Some true <-> a = Some true \/ b = Some true.
Proof.
  destruct a as [[]|], b as [[]|]; simpl; split; intros H; try done;
    tauto || (destruct H; done).
Qed.

Lemma c_string_nul_free (s : string) : nul_free s -> c_string s = s.
Proof.
  unfold nul_free. induction s as [|c s IH]; simpl; [done|].
  intros H. apply not_elem_of_cons in H as [Hc Hs].
  destruct (Ascii.eqb_spec c Ascii.zero) as [E|_]; [by destruct Hc|].
  by rewrite IH.
Qed.

Lemma nul_free_pattern (query : string) :
  nul_free query -> nul_free ("%" ++ query ++ "%").
Proof.
  unfold nul_free. change ("%" ++ query ++ "%")%string
    with (String "%" (query ++ "%"))%string.
  simpl list_ascii_of_string. rewrite chars_app. simpl.
  intros H Hin. apply elem_of_cons in Hin as [Hin|Hin]; [discriminate Hin|].
  apply elem_of_app in Hin as [Hin|Hin]; [done|].
  apply elem_of_cons in Hin as [Hin|Hin]; [discriminate Hin|].
  by apply elem_of_nil in Hin.
Qed.

Lemma sql_like_contains (v : value) (query : string) :
  wildcard_free query -> nul_free query ->
  sql_like v (VText ("%" ++ query ++ "%")%string) = Some true
  <-> cell_holds v query.
Proof.
  intros Hq Hn. unfold sql_like, cell_holds. simpl (text_of (VText _)).
  destruct (text_of v) as [s|];
    [rewrite (c_string_nul_free _ (nul_free_pattern _ Hn))|]; split.
  - intros [= H]. exists s. split; [done|]. by apply like_contains.
  - intros (s' & [= <-] & H). f_equal. by apply like_contains.
  - done.
  - intros (s' & ? & _). done.
Qed.

(** The pattern of a query that fits is not too long. *)
Lemma fits_like_pattern (query : string) :
  fits_like query -> pattern_too_long (VText ("%" ++ query ++ "%")) = false.
Proof.
  unfold fits_like, pattern_too_long. intros H. apply Z.ltb_ge.
  change ("%" ++ query ++ "%")%string with (String "%" (query ++ "%"))%string.
  assert (forall a b : string,
            String.length (a ++ b) = (String.length a + String.length b)%nat)
    as Hlen.
  { intros a b. induction a as [|c a IH]; [done|].
    change (String c a ++ b)%string with (String c (a ++ b)%string).
    simpl String.length. by rewrite IH. }
  simpl String.length. rewrite Hlen. simpl String.length. lia.
Qed.

End Text.

(** ** Comparison and order *)

Section Order.

Lemma sql_eq_int_true v n : sql_eq v (VInt n) = Some true <-> v = VInt n.
Proof.
  destruct v as [|m|s]; simpl; split; try done.
  - intros [= H]. apply Z.eqb_eq in H. by subst.
  - intros [= ->]. by rewrite Z.eqb_refl.
Qed.

Lemma sql_eq_text_true v s : sql_eq v (VText s) = Some true <-> v = VText s.
Proof.
  destruct v as [|m|t]; simpl; split; try done.
  - intros [= H]. apply String.eqb_eq in H. by subst.
  - intros [= ->]. by rewrite String.eqb_refl.
Qed.

Lemma selected_equals_int (i : nat) (n : Z) (r : row) :
  selected (fun r => sql_eq (cell r i) (VInt n)) r = true <-> cell r i = VInt n.
Proof.
  unfold selected. rewrite <- sql_eq_int_true.
  destruct (sql_eq (cell r i) (VInt n)) as [[]|]; split; done.
Qed.

Lemma selected_equals_text (i : nat) (s : string) (r : row) :
  selected (fun r => sql_eq (cell r i) (VText s)) r = true <-> cell r i = VText s.
Proof.
  unfold selected. rewrite <- sql_eq_text_true.
  destruct (sql_eq (cell r i) (VText s)) as [[]|]; split; done.
Qed.

Lemma ascii_compare_trans a b c r :
  Ascii.compare a b = r -> Ascii.compare b c = r -> Ascii.compare a c = r.
Proof.
  unfold Ascii.compare. destruct r; intros H1 H2.
  - apply N.compare_eq_iff in H1. apply N.compare_eq_iff in H2.
    apply N.compare_eq_iff. congruence.
  - exact (N.lt_trans _ _ _ H1 H2).
  - apply N.gt_lt_iff. apply N.gt_lt_iff in H1. apply N.gt_lt_iff in H2.
    exact (N.lt_trans _ _ _ H2 H1).
Qed.

Lemma string_compare_trans s t u :
  String.compare s t <> Gt -> String.compare t u <> Gt -> String.compare s u <> Gt.
Proof.
  revert t u. induction s as [|a s IH]; intros [|b t] [|c u]; simpl; try done.
  destruct (Ascii.compare a b) eqn:Eab; [| |done];
    destruct (Ascii.compare b c) eqn:Ebc; try done.
  - rewrite (ascii_compare_trans _ _ _ _ Eab Ebc). apply IH.
  - apply Ascii.compare_eq_iff in Eab as ->. by rewrite Ebc.
  - apply Ascii.compare_eq_iff in Ebc as ->. by rewrite Eab.
  - by rewrite (ascii_compare_trans _ _ _ _ Eab Ebc).
Qed.

Lemma string_leb_trans s t u :
  String.leb s t = true -> String.leb t u = true -> String.leb s u = true.
Proof.
  unfold String.leb. intros H1 H2.
  pose proof (string_compare_trans s t u) as H.
  destruct (String.compare s t), (String.compare t u), (String.compare s u);
    try done; exfalso; by apply H.
Qed.

Global Instance value_le_trans : Transitive value_le.
Proof.
  intros [|x|s] [|y|t] [|z|u]; unfold value_le; simpl; try done.
  - rewrite !Z.leb_le. lia.
  - apply string_leb_trans.
Qed.

Global Instance value_le_total : Total value_le.
Proof.
  intros [|x|s] [|y|t]; unfold value_le; simpl; auto.
  - rewrite !Z.leb_le. lia.
  - apply String.leb_total.
Qed.

Lemma insert_row_perm i r l : insert_row i r l ≡ₚ r :: l.
Proof.
  induction l as [|r' l IH]; simpl; [done|].
  destruct (value_leb (cell r i) (cell r' i)); [done|].
  rewrite IH. apply Permutation_swap.
Qed.

Lemma order_by_perm i l : order_by i l ≡ₚ l.
Proof.
  induction l as [|r l IH]; simpl; [done|].
  unfold order_by in *. simpl. by rewrite insert_row_perm, IH.
Qed.

Lemma insert_row_sorted i r l :
  StronglySorted (row_le i) l -> StronglySorted (row_le i) (insert_row i r l).
Proof.
  induction 1 as [|r' l Hl IH Hall]; simpl.
  - repeat constructor.
  - destruct (value_leb (cell r i) (cell r' i)) eqn:E.
    + constructor; [by constructor|]. constructor; [exact E|].
      eapply Forall_impl; [exact Hall|]. intros y Hy.
      unfold row_le in *. by etrans.
    + constructor; [exact IH|]. rewrite insert_row_perm.
      constructor; [|exact Hall]. unfold row_le.
      destruct (value_le_total (cell r i) (cell r' i)) as [H|H]; [|done].
      unfold value_le in H. congruence.
Qed.

Lemma order_by_sorted i l : StronglySorted (row_le i) (order_by i l).
Proof.
  induction l as [|r l IH]; [constructor|]. by apply insert_row_sorted.
Qed.

Lemma project_sorted i l :
  StronglySorted (row_le i) l ->
  StronglySorted (row_le 0) ((fun r : row => [cell r i]) <$> l).
Proof.
  induction 1 as [|r l Hl IH Hall]; simpl; constructor; [done|].
  rewrite Forall_fmap. eapply Forall_impl; [exact Hall|]. done.
Qed.

Lemma remove_dups_sorted (R : relation row) (l : list row) :
  StronglySorted R l -> StronglySorted R (remove_dups l).
Proof.
  induction 1 as [|r l Hl IH Hall]; simpl; [constructor|].
  destruct (decide_rel elem_of r l); [done|].
  constructor; [done|]. rewrite Forall_forall in *. intros x Hx.
  apply Hall. by apply elem_of_remove_dups.
Qed.

Lemma next_rowid_fresh (ks : list Z) : next_rowid ks ∉ ks.
Proof.
  assert (forall k0 l k, k ∈ l -> (k <= foldr Z.max k0 l)%Z) as Hmax.
  { intros k0 l k. induction 1 as [k l|k k' l _ IH]; simpl; lia. }
  destruct ks as [|k0 ks]; simpl; [apply not_elem_of_nil|].
  intros H. apply elem_of_cons in H as [H|H].
  - assert (k0 <= foldr Z.max k0 ks)%Z by (clear; induction ks; simpl; lia). lia.
  - apply (Hmax k0) in H. lia.
Qed.

End Order.

(** ** Statements on the tables of the store *)

Section Engine.

Lemma find_table_insert (db : database) name t :
  find_table (<[lower name := t]> db) name = Some t.
Proof. unfold find_table. apply lookup_insert_eq. Qed.

Lemma store_cell_key ks d :
  col_primary_key d = true -> store_cell ks d VNull = Ok (VInt (next_rowid ks)).
Proof. intros H. unfold store_cell. by rewrite H. Qed.






Lemma run_select_column (distinct : bool) (db : database) table column t i :
  find_table db table = Some t ->
  column <> "*" ->
  resolve_column (tbl_columns t) column = Some i ->
  run (Select distinct column table None (Some column)) db
  = Ok (Effect db
          (let rows := (fun r : row => [cell r i]) <$> order_by i (tbl_rows t) in
           if distinct then remove_dups rows else rows)
          (-1)).
Proof.
  intros Ht Hstar Hi. unfold run. rewrite Ht. unfold compile_result, compile_order.
  apply String.eqb_neq in Hstar. rewrite Hstar, Hi. simpl. by rewrite filter_all.
Qed.


Lemma rekeyed_none cols l rows : rekeyed cols l 0 rows = Ok rows.
Proof. unfold rekeyed. by destruct (index_where _ _). Qed.

Lemma update_rows_none sel l rows :
  (forall r, r ∈ rows -> sel r = false) ->
  update_rows sel l rows = Ok (rows, 0%Z).
Proof.
  induction rows as [|r rows IH]; intros H; simpl; [done|].
  rewrite (H r) by left. rewrite IH; [done|]. intros r' Hr'. apply H. by right.
Qed.


Lemma compile_set_Some cols (set : list (string * value)) :
  Forall (fun c => exists i d, resolve_column cols c = Some i /\ cols !! i = Some d)
         set.*1 ->
  exists l, compile_set cols set = Some l.
Proof.
  induction set as [|[c v] set IH]; simpl; intros H; [by eexists|].
  apply Forall_cons in H as [(i & d & Hi & Hd) H]. destruct (IH H) as [l ->].
  unfold compile_assignment. simpl. rewrite Hi. simpl. rewrite Hd. simpl.
  by eexists.
Qed.



Lemma create_if_absent_present name columns (db : database) :
  is_Some (find_table db name) -> create_if_absent name columns db = db.
Proof. intros [t Ht]. unfold create_if_absent. by rewrite Ht. Qed.

Lemma find_create_same name columns (db : database) :
  find_table (create_if_absent name columns db) name
  = Some (default (Table columns []) (find_table db name)).
Proof.
  unfold create_if_absent. destruct (find_table db name) eqn:E; simpl; [done|].
  apply find_table_insert.
Qed.

Lemma find_create_other name columns (db : database) other :
  lower other <> lower name ->
  find_table (create_if_absent name columns db) other = find_table db other.
Proof.
  intros H. unfold create_if_absent. destruct (find_table db name); [done|].
  unfold find_table. by rewrite lookup_insert_ne.
Qed.

Lemma find_with_schema (db : database) name columns :
  (name, columns) ∈ schema ->
  find_table (with_schema db) name
  = Some (default (Table columns []) (find_table db name)).
Proof.
  unfold schema, with_schema. intros H.
  repeat (apply elem_of_cons in H as [[= -> ->]|H]).
  - rewrite !find_create_other by discriminate. apply find_create_same.
  - rewrite find_create_other by discriminate. rewrite find_create_same.
    by rewrite find_create_other by discriminate.
  - rewrite find_create_same. by rewrite !find_create_other by discriminate.
  - by apply elem_of_nil in H.
Qed.

Lemma with_schema_idempotent (db : database) :
  with_schema (with_schema db) = with_schema db.
Proof.
  assert (forall name columns, (name, columns) ∈ schema ->
            is_Some (find_table (with_schema db) name)) as H.
  { intros name columns Hin. rewrite (find_with_schema _ _ _ Hin). by eexists. }
  unfold with_schema at 1.
  rewrite (create_if_absent_present "media_types").
  2:{ apply (H _ media_types_columns). unfold schema. set_solver. }
  rewrite (create_if_absent_present "genres").
  2:{ apply (H _ genres_columns). unfold schema. set_solver. }
  rewrite (create_if_absent_present "media").
  2:{ apply (H _ media_columns). unfold schema. set_solver. }
  reflexivity.
Qed.

End Engine.

(** ** Method bodies *)

Section Bodies.

(** The fetch loop, when no failure is to come: it ends with every row
    fetched, whatever fuel is left. *)
Lemma fetch_loop_ok (fuel : nat) (count : Z) (st : state) :
  faults st = [] -> (- 2 ^ 31 <= count < 2 ^ 31)%Z ->
  (length (results st) < fuel)%nat ->
  exists out,
    fetch_loop fuel count st
    = (State (committed st) (pending st) [] (rowcount st) (log st) [], out, Ok tt)
    /\ concat out = results st
    /\ ((0 < count)%Z -> Forall (fun c => (Z.of_nat (length c) <= count)%Z) out).
Proof.
  intros Hf Hc. revert st Hf.
  induction fuel as [|fuel IH]; intros [db p res rc lg fs]; simpl;
    intros -> Hlen; [lia|].
  unfold fetchmany.
  replace ((- 2 ^ 31 <=? count) && (count <? 2 ^ 31))%Z with true
    by (symmetry; apply andb_true_iff; split; [apply Z.leb_le | apply Z.ltb_lt]; lia).
  unfold storage_call, next_rows, mbind, Py_bind. simpl.
  remember (if (0 <? count)%Z then Z.to_nat count else length res) as n eqn:En.
  destruct res as [|r res].
  - rewrite take_nil, drop_nil. exists []. unfold mret, Py_ret. simpl. auto.
  - destruct n as [|n].
    { exfalso. destruct (Z.ltb_spec 0 count); simpl in En; lia. }
    change (take (S n) (r :: res)) with (r :: take n res).
    change (drop (S n) (r :: res)) with (drop n res).
    unfold yield_rows, mret, Py_ret. cbv beta iota.
    destruct (IH (State db p (drop n res) rc lg [])) as (out & E & Hcat & Hsize);
      [done | simpl; rewrite length_drop; simpl in *; lia |].
    rewrite E. exists ((r :: take n res) :: out). split; [|split].
    + reflexivity.
    + simpl. simpl in Hcat. rewrite Hcat. f_equal. apply take_drop.
    + intros Hpos. constructor; [|by apply Hsize].
      simpl. rewrite length_take. destruct (Z.ltb_spec 0 count); lia.
Qed.

(** A method that runs one INSERT, UPDATE or DELETE and commits. *)
Lemma mutate_ok (s : statement) (msg : string) (st : state) (eff : effect) :
  pending st = None -> faults st = [] -> is_dml s = true ->
  forallb bindable (parameters s) = true ->
  run s (committed st) = Ok eff ->
  try_except (with_connection (execute s ;; commit)) (logger_exception msg) st
  = (State (eff_db eff) None (eff_rows eff) (eff_rowcount eff) (log st) [],
     [], Ok tt).
Proof.
  destruct st as [db p res rc lg fs]. simpl. intros -> -> Hs Hb Hrun.
  unfold try_except, with_connection, execute, begin_if_dml, bind_parameters,
    run_statement, storage_call, commit, rollback, mbind, Py_bind.
  simpl. rewrite Hs, Hb. simpl. unfold view. simpl. rewrite Hrun. simpl.
  reflexivity.
Qed.

Lemma mutate_raise (s : statement) (msg : string) (st : state) (e : exn) :
  pending st = None -> faults st = [] ->
  forallb bindable (parameters s) = true ->
  run s (committed st) = Raise e ->
  try_except (with_connection (execute s ;; commit)) (logger_exception msg) st
  = (State (committed st) None [] (-1) (log st ++ [msg]) [], [], Ok tt).
Proof.
  destruct st as [db p res rc lg fs]. simpl. intros -> -> Hb Hrun.
  unfold try_except, with_connection, execute, begin_if_dml, bind_parameters,
    run_statement, storage_call, commit, rollback, mbind, Py_bind.
  simpl. rewrite Hb.
  destruct (is_dml s); simpl; unfold view; simpl; rewrite Hrun; simpl; reflexivity.
Qed.

(** A streaming method: one SELECT, then the fetch loop. *)
Lemma stream_ok (s : statement) (count : Z) (msg : string) (st : state)
    (eff : effect) :
  pending st = None -> faults st = [] -> is_dml s = false ->
  forallb bindable (parameters s) = true ->
  (- 2 ^ 31 <= count < 2 ^ 31)%Z ->
  run s (committed st) = Ok eff ->
  exists out,
    try_except (with_connection (execute s ;; fetch_all count))
               (logger_exception msg) st
    = (State (eff_db eff) None [] (eff_rowcount eff) (log st) [], out, Ok tt)
    /\ concat out = eff_rows eff
    /\ ((0 < count)%Z -> Forall (fun c => (Z.of_nat (length c) <= count)%Z) out).
Proof.
  destruct st as [db p res rc lg fs]. simpl. intros -> -> Hs Hb Hc Hrun.
  unfold try_except, with_connection, execute, begin_if_dml, bind_parameters,
    run_statement, storage_call, fetch_all, mbind, Py_bind.
  simpl. rewrite Hs, Hb. simpl. unfold view. simpl. rewrite Hrun. simpl.
  destruct (fetch_loop_ok (S (length (eff_rows eff))) count
              (State (eff_db eff) None (eff_rows eff) (eff_rowcount eff) lg []))
    as (out & E & Hcat & Hsize); [done | done | simpl; lia |].
  simpl in E. rewrite E. simpl. exists out. auto.
Qed.

Lemma select_one_ok table column v (st : state) (eff : effect) :
  pending st = None -> faults st = [] -> bindable v = true ->
  run (Select false "*" table (Some (Equals column v)) None) (committed st)
  = Ok eff ->
  select_one_entry table column v st
  = (State (eff_db eff) None (tail (eff_rows eff)) (eff_rowcount eff) (log st) [],
     [], Ok (head (eff_rows eff))).
Proof.
  destruct st as [db p res rc lg fs]. simpl. intros -> -> Hb Hrun.
  unfold select_one_entry, try_except, with_connection, execute, begin_if_dml,
    bind_parameters, run_statement, storage_call, fetchone, next_row, commit,
    rollback, mbind, Py_bind.
  simpl. rewrite Hb. simpl. unfold view. simpl. rewrite Hrun. simpl. reflexivity.
Qed.


Lemma create_tables_ok (st : state) :
  faults st = [] ->
  create_tables st
  = (State (with_schema (view st)) None [] (-1) (log st) [], [], Ok tt).
Proof.
  destruct st as [db p res rc lg fs]. simpl. intros ->.
  unfold create_tables, try_except, with_connection, execute, begin_if_dml,
    bind_parameters, run_statement, storage_call, commit, rollback, mbind,
    Py_bind, with_schema, run.
  destruct p as [w|]; simpl; unfold view; simpl; reflexivity.
Qed.




(** Every method ends with no transaction open. *)
Lemma with_connection_closes {A} (body : Py A) (st : state) :
  pending (with_connection body st).1.1 = None.
Proof.
  unfold with_connection, commit, storage_call.
  destruct (body st) as [[st1 out1] [a|e]]; [|reflexivity].
  destruct (pending st1) as [db|] eqn:E; simpl; [|exact E].
  destruct (faults st1) as [|[] fs]; reflexivity.
Qed.


End Bodies.

(** ** The example stores *)

Section ExampleStores.

Lemma catalogue_media :
  find_table (committed catalogue) "media"
  = Some (Table media_columns [heat; oceans]).
Proof. vm_compute. reflexivity. Qed.

Lemma catalogue_genres :
  find_table (committed catalogue) "genres" = Some (Table genres_columns [action]).
Proof. vm_compute. reflexivity. Qed.

Lemma catalogue_idle : pending catalogue = None /\ faults catalogue = [].
Proof. vm_compute. split; reflexivity. Qed.

Lemma relabelled_tables :
  find_table (committed relabelled) "media"
  = Some (Table media_columns [<[4%nat := VText "-DELETED GENRE-"]> heat; oceans])
  /\ find_table (committed relabelled) "genres"
     = Some (Table genres_columns [deleted_genre]).
Proof. vm_compute. split; reflexivity. Qed.

End ExampleStores.

(** ** Integers that can be bound *)

Section Bindable.

Lemma bindable_int (n : Z) :
  (- 2 ^ 63 <= n < 2 ^ 63)%Z -> bindable (VInt n) = true.
Proof.
  intros H. unfold bindable. apply andb_true_iff.
  split; [apply Z.leb_le | apply Z.ltb_lt]; lia.
Qed.

Lemma forallb_bindable (l : list value) :
  Forall (fun v => bindable v = true) l -> forallb bindable l = true.
Proof. induction 1 as [|v l Hv _ IH]; simpl; [done | by rewrite Hv, IH]. Qed.

End Bindable.

(** ** The operations *)




(** C2: [delete_genre] is not atomic.  On the store [catalogue], deleting the
    genre Action:
    - with a storage failure at the UPDATE of [convert_entries], which
      that method catches and logs, the genre row is deleted and committed
      while the entry Heat still has the genre Action;
    - with a storage failure at the DELETE, the rewrite of the entries is
      already committed by [convert_entries] and stays, while the genre row
      stays too. *)
Theorem delete_genre_not_atomic :
  (let st' := (delete_genre action (with_faults [true] catalogue)).1.1 in
   rows_of "genres" st' = Some []
   /\ rows_of "media" st' = Some [heat; oceans]
   /\ m_genre heat = VText "Action"
   /\ log st' = ["Error in MDBHandler.convert_entries"])
  /\ (let st' :=
        (delete_genre action (with_faults [false; false; true] catalogue)).1.1 in
      rows_of "genres" st' = Some [action]
      /\ rows_of "media" st'
         = Some [<[4%nat := VText "-DELETED GENRE-"]> heat; oceans]
      /\ rows_of "media" st' <> rows_of "media" catalogue
      /\ log st' = ["Error in MDBHandler.delete_genre"]).
Proof. vm_compute. repeat split; discriminate. Qed.

(** C3, as amended.  For a query that has none of the characters '%', '_' and
    NUL and whose pattern [%query%] is within the 50000 bytes [LIKE] takes,
    [search] with no column yields, in table order, exactly the media rows of
    which the title, the description, the genre or the notes, read up to its
    first NUL character, contains the query as a case-insensitive
    substring. *)
Theorem search_all_columns (st : state) (rows : list row) (query : string)
    (count : Z) :
  pending st = None -> faults st = [] ->
  find_table (committed st) "media" = Some (Table media_columns rows) ->
  (- 2 ^ 31 <= count < 2 ^ 31)%Z ->
  wildcard_free query -> nul_free query -> fits_like query ->
  let found := concat (search query None count st).1.2 in
  sublist found rows
  /\ forall r, r ∈ found <->
       r ∈ rows
       /\ (cell_holds (m_title r) query \/ cell_holds (m_description r) query
           \/ cell_holds (m_genre r) query \/ cell_holds (m_notes r) query).
Proof.
  intros Hp Hf Ht Hc Hq Hn Hfit found. subst found. unfold search.
  set (p := VText ("%" ++ query ++ "%")%string).
  set (f := fun r : row =>
              sql_or (sql_or (sql_or (sql_like (cell r 1) p) (sql_like (cell r 2) p))
                             (sql_like (cell r 4) p))
                     (sql_like (cell r 9) p)).
  match goal with |- context [Select ?d ?c ?t ?w ?o] =>
    assert (run (Select d c t w o) (committed st)
            = Ok (Effect (committed st) (List.filter (selected f) rows) (-1)))
      as Hrun end.
  { unfold run. rewrite Ht. unfold tbl_columns, tbl_rows.
    change (compile_result media_columns "*") with (Some (fun r : row => r)).
    match goal with |- context [compile_where ?c ?w] =>
      change (compile_where c w) with (Some (selected f)) end.
    unfold compile_order. cbv beta iota.
    unfold where_raises. cbn [from_option too_complex]. subst p.
    rewrite (fits_like_pattern _ Hfit). cbn [orb andb].
    by rewrite list_fmap_id. }
  match type of Hrun with run ?s _ = _ =>
    destruct (stream_ok s count "Error in MDBHandler.search" st _ Hp Hf eq_refl
                eq_refl Hc Hrun)
      as (out & -> & Hcat & _) end.
  unfold fst, snd. rewrite Hcat. unfold eff_rows. split; [apply filter_sublist|].
  intros r. rewrite elem_of_filter. unfold selected.
  assert (f r = Some true <->
          cell_holds (m_title r) query \/ cell_holds (m_description r) query
          \/ cell_holds (m_genre r) query \/ cell_holds (m_notes r) query)
    as Hf'.
  { unfold f. rewrite !sql_or_true. subst p. rewrite !sql_like_contains by done.
    unfold m_title, m_description, m_genre, m_notes. tauto. }
  rewrite <- Hf'. destruct (f r) as [[]|]; split; intros [? ?]; split; done.
Qed.

(** C3 at the store [catalogue], for the query "hEa". *)
Lemma search_all_columns_witness :
  wildcard_free "hEa"
  /\ sublist (concat (search "hEa" None 1000 catalogue).1.2) [heat; oceans].
Proof.
  assert (wildcard_free "hEa") as Hq.
  { unfold wildcard_free. simpl. repeat constructor; discriminate. }
  split; [exact Hq|].
  apply (search_all_columns catalogue [heat; oceans] "hEa" 1000).
  - reflexivity.
  - reflexivity.
  - vm_compute. reflexivity.
  - lia.
  - exact Hq.
  - unfold nul_free. simpl. intros Hin.
    repeat (apply elem_of_cons in Hin as [Hin|Hin]; [discriminate Hin|]).
    by apply elem_of_nil in Hin.
  - unfold fits_like, max_like_pattern. simpl. lia.
Defined.

(** C3 as stated fails for the query "_": on the store [catalogue], [search]
    yields the entry Heat, and none of its title, description, genre and
    notes contains an underscore. *)
Lemma search_underscore_matches_anything :
  heat ∈ concat (search "_" None 1000 catalogue).1.2
  /\ ~ (cell_contains (m_title heat) "_" \/ cell_contains (m_description heat) "_"
        \/ cell_contains (m_genre heat) "_" \/ cell_contains (m_notes heat) "_").
Proof.
  split.
  - vm_compute. left.
  - assert (forall s, "_"%char ∉ list_ascii_of_string (lower s) ->
              ~ cell_contains (VText s) "_") as H.
    { intros s Hs (s' & [= <-] & Hc). apply Hs.
      apply (contains_ci_occurs _ _ _ Hc). left. }
    intros [Hc | [Hc | [Hc | Hc]]]; revert Hc; apply H; vm_compute;
      intros Hin; repeat (apply elem_of_cons in Hin as [Hin|Hin]; [discriminate|]);
      by apply elem_of_nil in Hin.
Qed.



(** C5, as amended.  For a table of the store, a column of that table (not
    ["*"]) and a page size from 1 to 2^31 - 1, a full iteration of
    [return_all_entries] fetches at most [count] rows at a time and yields
    one row per row of the table, holding that column, in ascending order;
    [return_distinct_entries] does the same for the distinct values of the
    column, each yielded once. *)
Theorem return_entries_complete_sorted (st : state) (table column : string)
    (t : Sql.table) (i : nat) (count : Z) :
  pending st = None -> faults st = [] ->
  find_table (committed st) table = Some t ->
  column <> "*" ->
  resolve_column (tbl_columns t) column = Some i ->
  (0 < count < 2 ^ 31)%Z ->
  let all := (return_all_entries table column count st).1.2 in
  let distinct := (return_distinct_entries table column count st).1.2 in
  (Forall (fun c => (Z.of_nat (length c) <= count)%Z) all
   /\ concat all ≡ₚ (fun r : row => [cell r i]) <$> tbl_rows t
   /\ StronglySorted (row_le 0) (concat all))
  /\ (Forall (fun c => (Z.of_nat (length c) <= count)%Z) distinct
      /\ NoDup (concat distinct)
      /\ (forall v, [v] ∈ concat distinct <->
                    exists r, r ∈ tbl_rows t /\ cell r i = v)
      /\ StronglySorted (row_le 0) (concat distinct)).
Proof.
  intros Hp Hf Ht Hstar Hi Hc all distinct.
  assert (- 2 ^ 31 <= count < 2 ^ 31)%Z as Hc' by lia.
  split.
  - subst all. unfold return_all_entries.
    destruct (stream_ok (Select false column table None (Some column)) count
                "Error in MDBHandler.return_all_entries" st _ Hp Hf eq_refl
                eq_refl Hc' (run_select_column false _ _ _ _ _ Ht Hstar Hi))
      as (out & -> & Hcat & Hsize).
    simpl. rewrite Hcat. simpl. split; [apply Hsize; lia|]. split.
    + by rewrite order_by_perm.
    + apply project_sorted, order_by_sorted.
  - subst distinct. unfold return_distinct_entries.
    destruct (stream_ok (Select true column table None (Some column)) count
                "Error in MDBHandler.return_distinct_entries" st _ Hp Hf eq_refl
                eq_refl Hc' (run_select_column true _ _ _ _ _ Ht Hstar Hi))
      as (out & -> & Hcat & Hsize).
    simpl. rewrite Hcat. simpl. split; [apply Hsize; lia|]. split; [|split].
    + apply NoDup_remove_dups.
    + intros v. rewrite elem_of_remove_dups, list_elem_of_fmap. split.
      * intros (r & [= ->] & Hr). exists r. split; [|done].
        by rewrite <- (order_by_perm i).
      * intros (r & Hr & <-). exists r. split; [done|]. by rewrite order_by_perm.
    + apply remove_dups_sorted, project_sorted, order_by_sorted.
Qed.

(** C5 at the store [catalogue], for the titles, one row at a time. *)
Lemma return_entries_complete_sorted_witness :
  concat (return_all_entries "media" "title" 1 catalogue).1.2
  ≡ₚ (fun r : row => [cell r 1]) <$> [heat; oceans].
Proof.
  apply (return_entries_complete_sorted catalogue "media" "title"
           (Table media_columns [heat; oceans]) 1 1).
  - reflexivity.
  - reflexivity.
  - vm_compute. reflexivity.
  - discriminate.
  - reflexivity.
  - lia.
Defined.

(** C5 as stated fails outside these bounds.  On the store [catalogue],
    whose media table has two rows: with ["*"] as the column, which the
    docstring gives for complete rows, [return_all_entries] yields no row;
    with a page size of 0 its one fetch brings both rows; with a page size
    of 2^31 it yields no row. *)
Lemma return_all_entries_outside_bounds :
  rows_of "media" catalogue = Some [heat; oceans]
  /\ (return_all_entries "media" "*" 1000 catalogue).1.2 = []
  /\ (return_all_entries "media" "title" 0 catalogue).1.2
     = [[[VText "Heat"]; [VText "Ocean's Eleven"]]]
  /\ (return_all_entries "media" "title" (2 ^ 31) catalogue).1.2 = [].
Proof. vm_compute. repeat split; reflexivity. Qed.

(** C6.  [update_entry] on the media table with an id no row has changes no
    row and no table, reports zero rows changed, logs nothing and returns
    normally. *)
Theorem update_entry_absent_id (st : state) (rows : list row) (n : Z)
    (title description age_rating genre season disc_count media_type play_time
     notes : value) :
  pending st = None -> faults st = [] ->
  find_table (committed st) "media" = Some (Table media_columns rows) ->
  (forall r, r ∈ rows -> m_id r <> VInt n) ->
  (- 2 ^ 63 <= n < 2 ^ 63)%Z ->
  Forall (fun v => bindable v = true)
         [title; description; age_rating; genre; season; disc_count; media_type;
          play_time; notes] ->
  update_entry "media" (VInt n) title description age_rating genre season
               disc_count media_type play_time notes st
  = (State (committed st) None [] 0 (log st) [], [], Ok tt).
Proof.
  intros Hp Hf Ht Hid Hn Hb. unfold update_entry.
  match goal with |- context [Update ?t ?set ?w] =>
    assert (run (Update t set w) (committed st)
            = Ok (Effect (<["media" := Table media_columns rows]> (committed st))
                    [] 0))
      as Hrun end.
  { unfold run. rewrite Ht. unfold tbl_columns, tbl_rows.
    match goal with |- context [compile_set ?c ?l] =>
      destruct (compile_set_Some c l) as [a ->] end.
    { simpl fmap. repeat constructor; eexists _, _; split; reflexivity. }
    change (compile_expr media_columns (Equals "id" (VInt n)))
      with (Some (fun r : row => sql_eq (cell r 0) (VInt n))).
    cbv beta iota. rewrite update_rows_none; [reflexivity|].
    intros r Hr. apply not_true_is_false. rewrite selected_equals_int.
    by apply Hid. }
  erewrite mutate_ok; [ | exact Hp | exact Hf | reflexivity | | exact Hrun ].
  2:{ apply forallb_bindable. apply Forall_app. split; [exact Hb|].
      repeat constructor. by apply bindable_int. }
  unfold eff_db, eff_rows, eff_rowcount. f_equal. f_equal. f_equal.
  apply insert_id. exact Ht.
Qed.

(** C6 at the store [catalogue], for the id 7. *)
Lemma update_entry_absent_id_witness :
  update_entry "media" (VInt 7) (VText "Alien") (VText EmptyString) (VText "18")
               (VText "Horror") (VInt 0) (VInt 1) (VText "DVD") (VInt 117)
               (VText EmptyString) catalogue
  = (State (committed catalogue) None [] 0 (log catalogue) [], [], Ok tt).
Proof.
  apply (update_entry_absent_id catalogue [heat; oceans] 7).
  - reflexivity.
  - reflexivity.
  - vm_compute. reflexivity.
  - intros r Hr. repeat (apply elem_of_cons in Hr as [->|Hr]); try discriminate.
    by apply elem_of_nil in Hr.
  - lia.
  - repeat constructor.
Defined.

(** C7.  With no storage failure, [create_tables] does not fail and a second
    call changes nothing.  After it each of the three tables is there: as it
    was when it existed, else empty with the declared columns.  In each
    declaration [id] is the INTEGER PRIMARY KEY, for which the store gives a
    new row a key that no row has, and [title] of [media] is NOT NULL. *)
Theorem create_tables_idempotent (st : state) :
  faults st = [] ->
  let st1 := (create_tables st).1.1 in
  create_tables st1 = (st1, [], Ok tt)
  /\ (create_tables st).2 = Ok tt
  /\ log st1 = log st
  /\ (forall name columns, (name, columns) ∈ schema ->
        find_table (committed st1) name
        = Some (default (Table columns []) (find_table (view st) name)))
  /\ (forall name columns, (name, columns) ∈ schema ->
        exists d, columns !! 0%nat = Some d /\ col_name d = "id"
                  /\ col_affinity d = INTEGER /\ col_primary_key d = true)
  /\ media_columns !! 1%nat = Some (ColumnDef "title" VARCHAR true false)
  /\ (forall ks d, col_primary_key d = true ->
        exists k, store_cell ks d VNull = Ok (VInt k) /\ k ∉ ks).
Proof.
  intros Hf st1. subst st1. rewrite (create_tables_ok st Hf). unfold fst, snd.
  split; [|split; [|split; [|split; [|split; [|split]]]]].
  - rewrite create_tables_ok by reflexivity.
    unfold view, pending, committed, log, default.
    by rewrite with_schema_idempotent.
  - reflexivity.
  - reflexivity.
  - intros name columns Hin. unfold committed. by apply find_with_schema.
  - intros name columns Hin. unfold schema in Hin.
    repeat (apply elem_of_cons in Hin as [[= -> ->]|Hin]);
      [eexists; repeat split; reflexivity ..|by apply elem_of_nil in Hin].
  - reflexivity.
  - intros ks d Hd. exists (next_rowid ks). split; [by apply store_cell_key|].
    apply next_rowid_fresh.
Qed.

(** C7 on a new database file. *)
Lemma create_tables_idempotent_witness :
  create_tables (create_tables fresh).1.1 = ((create_tables fresh).1.1, [], Ok tt).
Proof.
  apply (create_tables_idempotent fresh). reflexivity.
Defined.

(** C8: [filter_entries] splices the value between quotes into the text of
    the statement.  On the store [catalogue], which holds an entry titled
    "Ocean's Eleven", filtering the media table on that title yields no row
    and logs an error, while [select_one_entry], which binds the value, finds
    the row; for the title "Heat" the filter does yield the row. *)
Theorem filter_entries_quote :
  (filter_entries "media" "title" "Ocean's Eleven" 1000 catalogue).1.2 = []
  /\ log (filter_entries "media" "title" "Ocean's Eleven" 1000 catalogue).1.1
     = ["Error in MDBHandler.filter_entries"]
  /\ rows_of "media" catalogue = Some [heat; oceans]
  /\ m_title oceans = VText "Ocean's Eleven"
  /\ (select_one_entry "media" "title" (VText "Ocean's Eleven") catalogue).2
     = Ok (Some oceans)
  /\ concat (filter_entries "media" "title" "Heat" 1000 catalogue).1.2 = [heat].
Proof. vm_compute. repeat split; reflexivity. Qed.

(** ** Failures caught and logged *)

Section Accounting.


(** A step that does not reach the storage. *)
Lemma accounted_quiet st st' (P : Prop) ms :
  faults st' = faults st -> log st' = log st ++ ms -> accounted st st' P.
Proof.
  intros Hf Hl. exists [], ms. rewrite Hf. split; [done|]. split; [done|].
  intros H. by apply elem_of_nil in H.
Qed.





Lemma accounts_quiet {A} (m : Py A) :
  (forall st, faults (m st).1.1 = faults st
              /\ exists ms, log (m st).1.1 = log st ++ ms) ->
  accounts m.
Proof. intros H st. destruct (H st) as [Hf [ms Hl]]. by eapply accounted_quiet. Qed.






Lemma accounts_rollback : accounts rollback.
Proof. apply accounts_quiet. intros st. split; [done|]. exists []. by rewrite app_nil_r. Qed.

Lemma accounts_logger_exception msg : accounts (logger_exception msg).
Proof. apply accounts_quiet. intros st. split; [done|]. by exists [msg]. Qed.




























End Accounting.





(** * More of the handler *)

(** ** What every method keeps *)

Section Keeps.

Lemma try_with_closes {A} (body handler : Py A) (st : state) :
  (forall st', pending st' = None -> pending (handler st').1.1 = None) ->
  pending (try_except (with_connection body) handler st).1.1 = None.
Proof.
  intros H. unfold try_except.
  pose proof (with_connection_closes body st) as Hc.
  destruct (with_connection body st) as [[st1 out1] [a|e]]; simpl in *; [exact Hc|].
  specialize (H st1 Hc). destruct (handler st1) as [[st2 out2] r]. exact H.
Qed.

Lemma try_with_logs_closes (body : Py unit) (msg : string) (st : state) :
  pending (try_except (with_connection body) (logger_exception msg) st).1.1 = None.
Proof. apply try_with_closes. intros st' H. exact H. Qed.

Lemma read_only_ret {A} (a : A) : read_only (mret a).
Proof. intros st H. by split. Qed.

Lemma read_only_raise {A} (e : exn) : read_only (@raise A e).
Proof. intros st H. by split. Qed.

Lemma read_only_bind {A B} (m : Py A) (f : A -> Py B) :
  read_only m -> (forall a, read_only (f a)) -> read_only (m ≫= f).
Proof.
  intros Hm Hf st H. unfold mbind, Py_bind.
  destruct (Hm st H) as [Hc Hp]. destruct (m st) as [[st1 out1] [a|e]]; simpl in *.
  - destruct (Hf a st1 Hp) as [Hc' Hp'].
    destruct (f a st1) as [[st2 out2] r]. simpl in *. split; congruence.
  - by split.
Qed.

Lemma read_only_try_except {A} (body handler : Py A) :
  read_only body -> read_only handler -> read_only (try_except body handler).
Proof.
  intros Hb Hh st H. unfold try_except.
  destruct (Hb st H) as [Hc Hp]. destruct (body st) as [[st1 out1] [a|e]]; simpl in *.
  - by split.
  - destruct (Hh st1 Hp) as [Hc' Hp'].
    destruct (handler st1) as [[st2 out2] r]. simpl in *. split; congruence.
Qed.

Lemma read_only_with_connection {A} (body : Py A) :
  read_only body -> read_only (with_connection body).
Proof.
  intros Hb st H. unfold with_connection, commit.
  destruct (Hb st H) as [Hc Hp]. destruct (body st) as [[st1 out1] [a|e]]; simpl in *.
  - rewrite Hp. simpl. by split.
  - by split.
Qed.

Lemma read_only_catch {A} (m : Py A) : read_only m -> read_only (catch m).
Proof.
  intros Hm st H. unfold catch. destruct (Hm st H) as [Hc Hp].
  destruct (m st) as [[st1 out1] r]. by split.
Qed.

Lemma read_only_logger_exception msg : read_only (logger_exception msg).
Proof. intros st H. by split. Qed.

Lemma read_only_rollback : read_only rollback.
Proof. intros st H. by split. Qed.

Lemma read_only_storage_call : read_only storage_call.
Proof.
  intros st H. unfold storage_call. destruct (faults st) as [|[] fs]; by split.
Qed.

Lemma read_only_yield_rows rows : read_only (yield_rows rows).
Proof. intros st H. by split. Qed.

Lemma read_only_index entry i : read_only (index entry i).
Proof. unfold index. destruct (entry !! i); [apply read_only_ret | apply read_only_raise]. Qed.

Lemma read_only_first_of fetched : read_only (first_of fetched).
Proof.
  unfold first_of. destruct fetched; [apply read_only_index | apply read_only_raise].
Qed.

Lemma read_only_reset_cursor : read_only reset_cursor.
Proof. intros st H. by split. Qed.

Lemma read_only_spliced_literal text : read_only (spliced_literal text).
Proof.
  unfold spliced_literal. case_bool_decide.
  - apply read_only_bind; [apply read_only_reset_cursor|]. intros _.
    apply read_only_raise.
  - destruct (read_literal text); [apply read_only_ret|].
    apply read_only_bind; [apply read_only_reset_cursor|]. intros _.
    apply read_only_raise.
Qed.

Lemma read_only_bind_parameters s : read_only (bind_parameters s).
Proof.
  unfold bind_parameters.
  destruct (forallb bindable (parameters s)); [apply read_only_ret | apply read_only_raise].
Qed.

Lemma run_select_db distinct column table where_ order (db : database) eff :
  run (Select distinct column table where_ order) db = Ok eff -> eff_db eff = db.
Proof.
  unfold run. destruct (find_table db table) as [t|]; [|done].
  destruct (compile_result (tbl_columns t) column),
    (compile_where (tbl_columns t) where_), (compile_order (tbl_columns t) order);
    try done.
  destruct (where_raises where_ (tbl_rows t)); [done|]. by intros [= <-].
Qed.

Lemma read_only_execute_select distinct column table where_ order :
  read_only (execute (Select distinct column table where_ order)).
Proof.
  unfold execute. apply read_only_bind; [apply read_only_reset_cursor|]. intros _.
  apply read_only_bind; [apply read_only_storage_call|]. intros _.
  apply read_only_bind.
  { intros st H. unfold begin_if_dml. rewrite H. by split. }
  intros _. apply read_only_bind; [apply read_only_bind_parameters|]. intros _.
  intros st H. unfold run_statement, view. rewrite H. simpl.
  destruct (run _ (committed st)) as [eff|e] eqn:E; simpl; [|by split].
  split; [by eapply run_select_db | reflexivity].
Qed.

Lemma read_only_execute_count table where_ : read_only (execute_count table where_).
Proof.
  unfold execute_count. apply read_only_bind; [apply read_only_reset_cursor|].
  intros _. apply read_only_bind; [apply read_only_storage_call|].
  intros _. apply read_only_bind; [apply read_only_bind_parameters|]. intros _.
  intros st H. unfold run_count_statement.
  destruct (run_count table where_ (view st)); by split.
Qed.

Lemma read_only_next_rows count : read_only (next_rows count).
Proof. intros st H. by split. Qed.

Lemma read_only_fetchmany count : read_only (fetchmany count).
Proof.
  unfold fetchmany. destruct (_ && _); [|apply read_only_raise].
  apply read_only_bind; [apply read_only_storage_call|]. intros _.
  apply read_only_next_rows.
Qed.

Lemma read_only_fetchone : read_only fetchone.
Proof.
  unfold fetchone. apply read_only_bind; [apply read_only_storage_call|]. intros _.
  intros st H. by split.
Qed.

Lemma read_only_fetchall : read_only fetchall.
Proof.
  unfold fetchall. apply read_only_bind; [apply read_only_storage_call|]. intros _.
  apply read_only_next_rows.
Qed.

Lemma read_only_fetch_loop fuel count : read_only (fetch_loop fuel count).
Proof.
  induction fuel as [|fuel IH]; simpl; [apply read_only_ret|].
  apply read_only_bind; [apply read_only_fetchmany|]. intros [|r rows].
  - apply read_only_ret.
  - apply read_only_bind; [apply read_only_yield_rows|]. intros _. exact IH.
Qed.

Lemma read_only_fetch_all count : read_only (fetch_all count).
Proof. intros st H. unfold fetch_all. by apply read_only_fetch_loop. Qed.

Lemma read_only_generator_step {A} (m : Py A) msg :
  read_only m -> read_only (generator_step m msg).
Proof.
  intros Hm. unfold generator_step.
  apply read_only_bind; [by apply read_only_catch|]. intros [a|e].
  - apply read_only_ret.
  - apply read_only_bind; [apply read_only_rollback|]. intros _.
    apply read_only_bind; [apply read_only_logger_exception|]. intros _.
    apply read_only_ret.
Qed.

Lemma read_only_for_each {B} (body : B -> row -> Py B) acc rows :
  (forall b r, read_only (body b r)) -> read_only (for_each body acc rows).
Proof.
  intros Hb. revert acc. induction rows as [|r rows IH]; intros acc; simpl.
  - apply read_only_ret.
  - apply read_only_bind; [apply Hb|]. intros acc'. apply IH.
Qed.

Lemma read_only_for_fetched {B} fuel count msg (body : B -> row -> Py B) acc :
  (forall b r, read_only (body b r)) ->
  read_only (for_fetched fuel count msg body acc).
Proof.
  intros Hb. revert acc. induction fuel as [|fuel IH]; intros acc; simpl.
  - apply read_only_ret.
  - apply read_only_bind.
    { apply read_only_generator_step, read_only_fetchmany. }
    intros [[|r rows]|].
    + apply read_only_bind; [|intros _; apply read_only_ret].
      apply read_only_generator_step, read_only_with_connection, read_only_ret.
    + apply read_only_bind.
      { apply read_only_catch. by apply read_only_for_each. }
      intros [acc'|e]; [apply IH|].
      apply read_only_bind; [apply read_only_rollback|]. intros _.
      apply read_only_raise.
    + apply read_only_ret.
Qed.

Lemma read_only_stream s count msg :
  read_only (execute s) ->
  read_only (try_except (with_connection (execute s ;; fetch_all count))
                        (logger_exception msg)).
Proof.
  intros Hs. apply read_only_try_except; [|apply read_only_logger_exception].
  apply read_only_with_connection, read_only_bind; [exact Hs|]. intros _.
  apply read_only_fetch_all.
Qed.

End Keeps.

(** X1.  The methods that only read leave the database file as it was,
    whatever their arguments and whatever storage failures are to come. *)
Theorem queries_are_read_only :
  (forall table column count, read_only (return_all_entries table column count))
  /\ (forall table column count,
        read_only (return_distinct_entries table column count))
  /\ (forall table column v count, read_only (filter_entries table column v count))
  /\ (forall query column count, read_only (search query column count))
  /\ (forall table column v, read_only (select_one_entry table column v))
  /\ (forall table column v, read_only (check_if_entry_exists table column v))
  /\ (forall fuel, read_only (count_entries_with fuel)).
Proof.
  split; [|split; [|split; [|split; [|split; [|split]]]]].
  - intros table column count. apply read_only_stream, read_only_execute_select.
  - intros table column count. apply read_only_stream, read_only_execute_select.
  - intros table column v count. unfold filter_entries.
    apply read_only_try_except; [|apply read_only_logger_exception].
    apply read_only_with_connection, read_only_bind;
      [apply read_only_spliced_literal|]. intros operand.
    apply read_only_bind; [apply read_only_execute_select|]. intros _.
    apply read_only_fetch_all.
  - intros query column count. unfold search.
    destruct column; apply read_only_stream, read_only_execute_select.
  - intros table column v. unfold select_one_entry. apply read_only_try_except.
    + apply read_only_with_connection, read_only_bind;
        [apply read_only_execute_select|]. intros _. apply read_only_fetchone.
    + apply read_only_bind; [apply read_only_logger_exception|]. intros _.
      apply read_only_ret.
  - intros table column v. unfold check_if_entry_exists. apply read_only_try_except.
    + apply read_only_with_connection, read_only_bind;
        [apply read_only_execute_select|]. intros _.
      apply read_only_bind; [apply read_only_fetchall|].
      intros [|r rows]; apply read_only_ret.
    + apply read_only_bind; [apply read_only_logger_exception|]. intros _.
      apply read_only_ret.
  - intros fuel. unfold count_entries_with. apply read_only_try_except.
    + apply read_only_bind; [|intros output; apply read_only_ret].
      apply read_only_with_connection.
      apply read_only_bind; [apply read_only_execute_count|]. intros _.
      apply read_only_bind; [apply read_only_fetchone|]. intros fetched.
      apply read_only_bind; [apply read_only_first_of|]. intros total.
      unfold for_in_stream. apply read_only_bind.
      { apply read_only_generator_step, read_only_execute_select. }
      intros [_|]; [|apply read_only_ret].
      apply read_only_for_fetched. intros output media_type.
      unfold count_entries_round.
      apply read_only_bind; [apply read_only_index|]. intros type.
      apply read_only_bind; [apply read_only_execute_count|]. intros _.
      apply read_only_bind; [apply read_only_fetchone|]. intros fetched'.
      apply read_only_bind; [apply read_only_first_of|]. intros count.
      apply read_only_ret.
    + apply read_only_bind; [apply read_only_logger_exception|]. intros _.
      apply read_only_ret.
Qed.

(** X1 at the store [catalogue], for a search. *)
Lemma queries_are_read_only_witness :
  committed (search "heat" None 1000 catalogue).1.1 = committed catalogue
  /\ pending (search "heat" None 1000 catalogue).1.1 = None.
Proof.
  destruct queries_are_read_only as (_ & _ & _ & H & _).
  apply (H "heat" None 1000%Z catalogue). reflexivity.
Defined.

(** X2.  No method leaves a transaction open: whatever the state before the
    call, its arguments and the storage failures to come, nothing is pending
    when it returns ([delete_entry] given a row of at least two cells). *)
Theorem methods_leave_nothing_pending (st : state) :
  (forall t d a g s dc mt pt n,
     pending (add_entry t d a g s dc mt pt n st).1.1 = None)
  /\ (forall e0 e1 rest, pending (delete_entry (e0 :: e1 :: rest) st).1.1 = None)
  /\ (forall table rowid t d a g s dc mt pt n,
        pending (update_entry table rowid t d a g s dc mt pt n st).1.1 = None)
  /\ (forall column old new, pending (convert_entries column old new st).1.1 = None)
  /\ (forall g d e, pending (add_genre g d e st).1.1 = None)
  /\ (forall entry, pending (delete_genre entry st).1.1 = None)
  /\ (forall rowid g d e, pending (update_genre rowid g d e st).1.1 = None)
  /\ (forall mt, pending (add_media_type mt st).1.1 = None)
  /\ (forall entry, pending (delete_media_type entry st).1.1 = None)
  /\ (forall rowid mt, pending (update_media_type rowid mt st).1.1 = None)
  /\ (forall table column count,
        pending (return_all_entries table column count st).1.1 = None)
  /\ (forall table column count,
        pending (return_distinct_entries table column count st).1.1 = None)
  /\ (forall table column v count,
        pending (filter_entries table column v count st).1.1 = None)
  /\ (forall query column count, pending (search query column count st).1.1 = None)
  /\ (forall table column v, pending (select_one_entry table column v st).1.1 = None)
  /\ (forall table column v,
        pending (check_if_entry_exists table column v st).1.1 = None)
  /\ pending (create_tables st).1.1 = None
  /\ (forall fuel, pending (count_entries_with fuel st).1.1 = None).
Proof.
  repeat split; intros; try apply try_with_logs_closes.
  - unfold delete_entry, mbind, Py_bind, index. simpl.
    pose proof (try_with_logs_closes
                  (rowid ← index (e0 :: e1 :: rest) 0;
                   execute (DeleteFrom "media" (Equals "rowid" rowid)))
                  "Error in MDBHandler.delete_entry" st) as H.
    unfold index, mbind, Py_bind in H. simpl in H.
    destruct (try_except _ _ st) as [[st2 out2] r]. exact H.
  - apply try_with_closes. intros st' H. exact H.
  - apply try_with_closes. intros st' H. exact H.
  - unfold count_entries_with, try_except, mbind, Py_bind.
    match goal with |- context [with_connection ?b st] =>
      pose proof (with_connection_closes b st) as H;
      destruct (with_connection b st) as [[st1 out1] [a|e]] end;
      simpl in *; exact H.
Qed.

(** ** One statement, all or nothing *)

Section AllOrNothing.

Lemma execute_commit_all_or_nothing (s : statement) (msg : string) :
  is_dml s = true ->
  all_or_nothing
    (try_except (with_connection (execute s ;; commit)) (logger_exception msg))
    s msg.
Proof.
  intros Hs [db p res rc lg fs]. simpl. intros ->.
  unfold try_except, with_connection, execute, begin_if_dml, bind_parameters,
    run_statement, storage_call, commit, rollback, mbind, Py_bind.
  simpl. rewrite Hs.
  destruct fs as [|[] fs]; simpl; try (split; [reflexivity | by right]);
    (destruct (forallb bindable (parameters s)); simpl;
       [|split; [reflexivity | by right]]);
    unfold view; simpl;
    (destruct (run s db) as [eff|e]; simpl; [|split; [reflexivity | by right]]).
  - split; [reflexivity|]. left. split; [reflexivity|]. by exists eff.
  - destruct fs as [|[] fs]; simpl.
    + split; [reflexivity|]. left. split; [reflexivity|]. by exists eff.
    + split; [reflexivity|]. by right.
    + split; [reflexivity|]. left. split; [reflexivity|]. by exists eff.
Qed.

Lemma execute_all_or_nothing (s : statement) (msg : string) :
  is_dml s = true ->
  all_or_nothing (try_except (with_connection (execute s)) (logger_exception msg))
                 s msg.
Proof.
  intros Hs [db p res rc lg fs]. simpl. intros ->.
  unfold try_except, with_connection, execute, begin_if_dml, bind_parameters,
    run_statement, storage_call, commit, rollback, mbind, Py_bind.
  simpl. rewrite Hs.
  destruct fs as [|[] fs]; simpl; try (split; [reflexivity | by right]);
    (destruct (forallb bindable (parameters s)); simpl;
       [|split; [reflexivity | by right]]);
    unfold view; simpl;
    (destruct (run s db) as [eff|e]; simpl; [|split; [reflexivity | by right]]).
  - split; [reflexivity|]. left. split; [reflexivity|]. by exists eff.
  - destruct fs as [|[] fs]; simpl.
    + split; [reflexivity|]. left. split; [reflexivity|]. by exists eff.
    + split; [reflexivity|]. by right.
    + split; [reflexivity|]. left. split; [reflexivity|]. by exists eff.
Qed.

End AllOrNothing.

(** X3.  Each method that runs a single INSERT, UPDATE or DELETE does all of
    it or nothing, whatever storage failures are to come: either nothing is
    logged and the database file is the one the statement makes, or the
    method's error is logged and the database file is as it was. *)
Theorem single_statement_methods_all_or_nothing :
  (forall t d a g s dc mt pt n,
     all_or_nothing (add_entry t d a g s dc mt pt n)
       (InsertValues "media" [VNull; t; d; a; g; s; dc; mt; pt; n])
       "Error in MCDHandler.add_entry")
  /\ (forall e0 e1 rest,
        all_or_nothing (delete_entry (e0 :: e1 :: rest))
          (DeleteFrom "media" (Equals "rowid" e0))
          "Error in MDBHandler.delete_entry")
  /\ (forall table rowid t d a g s dc mt pt n,
        all_or_nothing (update_entry table rowid t d a g s dc mt pt n)
          (Update table
             [("title", t); ("description", d); ("age_rating", a); ("genre", g);
              ("season", s); ("disc_count", dc); ("media_type", mt);
              ("play_time", pt); ("notes", n)]
             (Equals "id" rowid))
          "Error in MDBHandler.update_entry")
  /\ (forall column old new,
        all_or_nothing (convert_entries column old new)
          (Update "media" [(column, new)] (Equals column old))
          "Error in MDBHandler.convert_entries")
  /\ (forall g d e,
        all_or_nothing (add_genre g d e)
          (InsertValues "genres" [VNull; g; d; e]) "Error in MDBHandler.add_genre")
  /\ (forall rowid g d e,
        all_or_nothing (update_genre rowid g d e)
          (Update "genres" [("genre", g); ("description", d); ("examples", e)]
             (Equals "rowid" rowid))
          "Error in MDBHandler.update_genre")
  /\ (forall mt,
        all_or_nothing (add_media_type mt)
          (InsertValues "media_types" [VNull; mt])
          "Error in MDBHandler.add_media_type")
  /\ (forall rowid mt,
        all_or_nothing (update_media_type rowid mt)
          (Update "media_types" [("type", mt)] (Equals "rowid" rowid))
          "Error in MDBHandler.update_media_type").
Proof.
  split; [|split; [|split; [|split; [|split; [|split; [|split]]]]]].
  - intros. by apply execute_commit_all_or_nothing.
  - intros e0 e1 rest st Hp.
    pose proof (execute_all_or_nothing (DeleteFrom "media" (Equals "rowid" e0))
                  "Error in MDBHandler.delete_entry" eq_refl st Hp) as H.
    unfold delete_entry, mbind, Py_bind, index. simpl.
    unfold try_except, with_connection in *. unfold mbind, Py_bind. simpl.
    destruct (execute (DeleteFrom "media" (Equals "rowid" e0)) st)
      as [[st1 out1] [a|e]]; simpl in *.
    + destruct (commit st1) as [[st2 out2] [a2|e2]]; simpl in *; exact H.
    + exact H.
  - intros. by apply execute_commit_all_or_nothing.
  - intros. by apply execute_commit_all_or_nothing.
  - intros. by apply execute_commit_all_or_nothing.
  - intros. by apply execute_commit_all_or_nothing.
  - intros. by apply execute_commit_all_or_nothing.
  - intros. by apply execute_commit_all_or_nothing.
Qed.

(** X3 at the store [catalogue], with a storage failure at the commit. *)
Lemma single_statement_methods_all_or_nothing_witness :
  committed (add_genre (VText "Noir") (VText EmptyString) (VText EmptyString)
               (with_faults [false; true] catalogue)).1.1
  = committed catalogue.
Proof.
  destruct single_statement_methods_all_or_nothing as (_ & _ & _ & _ & H & _).
  destruct (H (VText "Noir") (VText EmptyString) (VText EmptyString)
              (with_faults [false; true] catalogue) eq_refl)
    as [_ [[Hlog _] | [_ Hc]]].
  - vm_compute in Hlog. discriminate.
  - exact Hc.
Defined.

(** ** Rows changed and rows kept *)

Section Rows.

Lemma find_table_insert_same (db : database) (name : string) (t : table) :
  lower name = name -> find_table (<[name := t]> db) name = Some t.
Proof. intros H. unfold find_table. rewrite H. apply lookup_insert_eq. Qed.


Lemma selected_null (a : affinity) (i : nat) (r : row) :
  selected (fun r => sql_eq (cell r i) (apply_affinity a VNull)) r = false.
Proof. unfold selected. destruct a; simpl; by destruct (cell r i). Qed.

Lemma filter_negb_selected_int (n : Z) (rs : list row) :
  List.filter (fun r => negb (selected (fun r => sql_eq (cell r 0) (VInt n)) r)) rs
  = List.filter (fun r => bool_decide (cell r 0 <> VInt n)) rs.
Proof.
  apply List.filter_ext. intros r.
  destruct (selected _ r) eqn:E; symmetry; simpl.
  - apply bool_decide_eq_false. intros H. apply H. by apply selected_equals_int.
  - apply bool_decide_eq_true. intros H. apply selected_equals_int in H.
    congruence.
Qed.

Lemma run_delete_media (db : database) rows (n : Z) :
  find_table db "media" = Some (Table media_columns rows) ->
  exists k,
    run (DeleteFrom "media" (Equals "rowid" (VInt n))) db
    = Ok (Effect (<["media" := Table media_columns
                      (List.filter (fun r => bool_decide (m_id r <> VInt n))
                                   rows)]> db)
            [] k).
Proof.
  intros Ht. eexists. unfold run. rewrite Ht. unfold tbl_columns, tbl_rows.
  change (compile_expr media_columns (Equals "rowid" (VInt n)))
    with (Some (fun r : row => sql_eq (cell r 0) (VInt n))).
  cbv beta iota. rewrite filter_negb_selected_int. reflexivity.
Qed.


Lemma delete_entry_ok (st : state) (rowid e1 : value) (rest : list value)
    (eff : effect) :
  pending st = None -> faults st = [] -> bindable rowid = true ->
  run (DeleteFrom "media" (Equals "rowid" rowid)) (committed st) = Ok eff ->
  delete_entry (rowid :: e1 :: rest) st
  = (State (eff_db eff) None (eff_rows eff) (eff_rowcount eff) (log st) [],
     [], Ok tt).
Proof.
  destruct st as [db p res rc lg fs]. simpl. intros -> -> Hb H.
  unfold delete_entry, try_except, with_connection, execute, begin_if_dml,
    bind_parameters, run_statement, storage_call, commit, rollback, index,
    mbind, Py_bind, mret, Py_ret.
  simpl. rewrite Hb. simpl. unfold view. simpl. rewrite H. simpl. reflexivity.
Qed.





End Rows.

(** X4.  [delete_entry] given a media row removes the rows of the media
    table that have its id and keeps every other row, in order; the other
    tables are not touched and nothing is logged. *)
Theorem delete_entry_removes_row (st : state) (rows : list row) (n : Z)
    (e1 : value) (rest : list value) :
  pending st = None -> faults st = [] ->
  find_table (committed st) "media" = Some (Table media_columns rows) ->
  (- 2 ^ 63 <= n < 2 ^ 63)%Z ->
  let st' := (delete_entry (VInt n :: e1 :: rest) st).1.1 in
  committed st'
  = <["media" := Table media_columns
        (List.filter (fun r => bool_decide (m_id r <> VInt n)) rows)]> (committed st)
  /\ (forall r, r ∈ rows -> m_id r <> VInt n ->
        r ∈ default [] (rows_of "media" st'))
  /\ (forall r, r ∈ default [] (rows_of "media" st') -> m_id r <> VInt n)
  /\ log st' = log st.
Proof.
  intros Hp Hf Ht Hn st'. destruct (run_delete_media _ _ n Ht) as [k H].
  subst st'. rewrite (delete_entry_ok st (VInt n) e1 rest _ Hp Hf
                        (bindable_int n Hn) H).
  unfold rows_of. cbn [fst committed log eff_db]. split; [reflexivity|].
  rewrite find_table_insert_same by reflexivity. simpl. split; [|split].
  - intros r Hr Hid. apply elem_of_filter. split; [exact Hr|].
    by apply bool_decide_eq_true.
  - intros r Hr. apply elem_of_filter in Hr as [_ Hr].
    by apply bool_decide_eq_true in Hr.
  - reflexivity.
Qed.

(** X4 at the store [catalogue], for the entry Heat. *)
Lemma delete_entry_removes_row_witness :
  rows_of "media" (delete_entry heat catalogue).1.1 = Some [oceans].
Proof.
  unfold rows_of.
  destruct (delete_entry_removes_row catalogue [heat; oceans] 1 (VText "Heat")
              (tail (tail heat))) as [H _].
  - reflexivity.
  - reflexivity.
  - vm_compute. reflexivity.
  - lia.
  - change (VInt 1 :: VText "Heat" :: tail (tail heat)) with heat in H.
    rewrite H. rewrite find_table_insert_same by reflexivity. reflexivity.
Defined.

(** X5.  [delete_entry] reads [entry[1]] for its debug line before its [try]:
    given a row of fewer than two cells it raises IndexError to the caller
    and leaves the state as it was. *)
Theorem delete_entry_short_row (st : state) (entry : list value) :
  (length entry < 2)%nat ->
  delete_entry entry st = (st, [], Raise IndexError).
Proof.
  intros H. destruct entry as [|e0 [|e1 rest]]; [reflexivity | reflexivity|].
  simpl in H. lia.
Qed.

(** X5 for the row of one cell. *)
Lemma delete_entry_short_row_witness :
  delete_entry [VInt 1] catalogue = (catalogue, [], Raise IndexError).
Proof. apply delete_entry_short_row. simpl. lia. Defined.



Section Updates.





Lemma update_rows_raise (sel : row -> bool) (i : nat) (e : exn)
    (l : list (nat * result value)) (rows : list row) :
  (exists r, r ∈ rows /\ sel r = true) ->
  update_rows sel ((i, Raise e) :: l) rows = Raise e.
Proof.
  intros (r0 & Hr0 & Hs). induction rows as [|r rows IH].
  - by apply elem_of_nil in Hr0.
  - cbn [update_rows assign]. destruct (sel r) eqn:E; [reflexivity|].
    apply elem_of_cons in Hr0 as [->|Hr0]; [congruence|].
    by rewrite (IH Hr0).
Qed.

End Updates.



(** X8.  [update_entry] with None as title on the id of a row: the NOT NULL
    constraint rejects the statement, the database file is as it was, the
    cursor is left without rows and the error is logged.  (On an id no row
    has, the same call logs nothing.) *)
Theorem update_entry_null_title (st : state) (rows : list row) (n : Z)
    (description age_rating genre season disc_count media_type play_time
     notes : value) :
  pending st = None -> faults st = [] ->
  find_table (committed st) "media" = Some (Table media_columns rows) ->
  (exists r, r ∈ rows /\ m_id r = VInt n) ->
  (- 2 ^ 63 <= n < 2 ^ 63)%Z ->
  Forall (fun v => bindable v = true)
         [description; age_rating; genre; season; disc_count; media_type;
          play_time; notes] ->
  update_entry "media" (VInt n) VNull description age_rating genre season
               disc_count media_type play_time notes st
  = (State (committed st) None [] (-1)
           (log st ++ ["Error in MDBHandler.update_entry"]) [], [], Ok tt).
Proof.
  intros Hp Hf Ht (r0 & Hr0 & Hid) Hn Hb. unfold update_entry.
  apply (mutate_raise _ _ _ IntegrityError); [exact Hp | exact Hf | |].
  { apply forallb_bindable. simpl.
    repeat (apply Forall_cons_1 in Hb as [? Hb]).
    repeat constructor; try assumption. by apply bindable_int. }
  unfold run. rewrite Ht. unfold tbl_columns, tbl_rows.
  match goal with |- context [compile_set ?c ?l] =>
    destruct (compile_set c l) as [a|] eqn:Ea end.
  2:{ exfalso.
      match type of Ea with compile_set ?c ?l = None =>
        destruct (compile_set_Some c l) as [a' Ha'] end.
      { simpl fmap. repeat constructor; eexists _, _; split; reflexivity. }
      congruence. }
  simpl in Ea. injection Ea as <-.
  change (compile_expr media_columns (Equals "id" (VInt n)))
    with (Some (fun r : row => sql_eq (cell r 0) (VInt n))).
  cbv beta iota. plain_clause. rewrite update_rows_raise; [reflexivity|].
  exists r0. split; [exact Hr0|]. by apply selected_equals_int.
Qed.

(** X8 at the store [catalogue], for the entry Heat. *)
Lemma update_entry_null_title_witness :
  update_entry "media" (VInt 1) VNull (VText EmptyString) (VText "15")
               (VText "Action") (VInt 0) (VInt 1) (VText "DVD") (VInt 170)
               (VText EmptyString) catalogue
  = (State (committed catalogue) None [] (-1)
           (log catalogue ++ ["Error in MDBHandler.update_entry"]) [], [], Ok tt).
Proof.
  apply (update_entry_null_title catalogue [heat; oceans] 1).
  - reflexivity.
  - reflexivity.
  - vm_compute. reflexivity.
  - exists heat. split; [left | reflexivity].
  - lia.
  - repeat constructor.
Defined.

(** ** Classifications: media types and genres *)

Section Classifications.


Lemma typed_tables :
  find_table (committed typed) "media" = Some (Table media_columns [heat; oceans])
  /\ find_table (committed typed) "media_types"
     = Some (Table media_types_columns [dvd])
  /\ find_table (committed typed) "genres" = Some (Table genres_columns [action])
  /\ pending typed = None /\ faults typed = [].
Proof. vm_compute. repeat split; reflexivity. Qed.

End Classifications.







(** ** Queries *)

Section Queries.

Lemma index_where_lookup {A} (f : A -> bool) (l : list A) (i : nat) :
  index_where f l = Some i -> is_Some (l !! i).
Proof.
  revert i. induction l as [|x l IH]; intros i; simpl; [done|].
  destruct (f x); [intros [= <-]; by eexists|].
  destruct (index_where f l) as [j|]; [|done].
  intros [= <-]. by apply IH.
Qed.

Lemma resolve_column_lookup (cols : list column_def) (name : string) (i : nat) :
  resolve_column cols name = Some i -> is_Some (cols !! i).
Proof.
  unfold resolve_column.
  destruct (index_where _ cols) as [j|] eqn:E.
  - intros [= <-]. by eapply index_where_lookup.
  - destruct (is_rowid_name name); [|done]. apply index_where_lookup.
Qed.





(** A streaming method the engine rejects the statement of. *)
Lemma stream_raise (s : statement) (count : Z) (msg : string) (st : state)
    (e : exn) :
  pending st = None -> faults st = [] ->
  forallb bindable (parameters s) = true ->
  run s (committed st) = Raise e ->
  try_except (with_connection (execute s ;; fetch_all count))
             (logger_exception msg) st
  = (State (committed st) None [] (-1) (log st ++ [msg]) [], [], Ok tt).
Proof.
  destruct st as [db p res rc lg fs]. simpl. intros -> -> Hb Hrun.
  unfold try_except, with_connection, execute, begin_if_dml, bind_parameters,
    run_statement, storage_call, commit, rollback, mbind, Py_bind.
  simpl. rewrite Hb.
  destruct (is_dml s); simpl; unfold view; simpl; rewrite Hrun; simpl; reflexivity.
Qed.

Lemma check_exists_ok table column v (st : state) (eff : effect) :
  pending st = None -> faults st = [] -> bindable v = true ->
  run (Select false "*" table (Some (Equals column v)) None) (committed st)
  = Ok eff ->
  check_if_entry_exists table column v st
  = (State (eff_db eff) None [] (eff_rowcount eff) (log st) [], [],
     Ok (Some (match eff_rows eff with [] => false | _ => true end))).
Proof.
  destruct st as [db p res rc lg fs]. simpl. intros -> -> Hb Hrun.
  unfold check_if_entry_exists, try_except, with_connection, execute,
    begin_if_dml, bind_parameters, run_statement, storage_call, fetchall,
    next_rows, commit, rollback, mbind, Py_bind, mret, Py_ret.
  simpl. rewrite Hb. simpl. unfold view. simpl. rewrite Hrun. simpl.
  rewrite drop_all, firstn_all.
  destruct (eff_rows eff); reflexivity.
Qed.

(** The rows a SELECT with [column = NULL] finds. *)
Lemma run_select_null (db : database) table column t i :
  find_table db table = Some t ->
  resolve_column (tbl_columns t) column = Some i ->
  run (Select false "*" table (Some (Equals column VNull)) None) db
  = Ok (Effect db [] (-1)).
Proof.
  intros Ht Hi. destruct (resolve_column_lookup _ _ _ Hi) as [d Hd].
  unfold run. rewrite Ht.
  change (compile_result (tbl_columns t) "*") with (Some (fun r : row => r)).
  unfold compile_where, compile_expr, compile_order. rewrite Hi. simpl.
  rewrite Hd. simpl. rewrite filter_none; [reflexivity|].
  intros r _. apply selected_null.
Qed.

End Queries.

(** X12.  [check_if_entry_exists] and [select_one_entry] agree: one answers
    True exactly when the other returns a row; when one answers False the
    other returns None and logs nothing; when one answers None (its except
    branch ran) the other returns None and logs its error.  So a None from
    [select_one_entry] stands for no row and for a failure alike. *)
Theorem check_agrees_with_select (st : state) (table column : string)
    (v : value) :
  pending st = None -> faults st = [] ->
  let check := check_if_entry_exists table column v st in
  let select := select_one_entry table column v st in
  (check.2 = Ok (Some true) <-> exists r, select.2 = Ok (Some r))
  /\ (check.2 = Ok (Some false) <-> select.2 = Ok None /\ log select.1.1 = log st)
  /\ (check.2 = Ok None <->
        select.2 = Ok None
        /\ log select.1.1 = log st ++ ["Error in MDBHandler.select_one_entry"]).
Proof.
  intros Hp Hf check select. subst check select.
  assert (forall l : list string, l <> l ++ ["Error in MDBHandler.select_one_entry"])
    as Hlog.
  { intros l H. apply (f_equal length) in H. rewrite length_app in H.
    simpl in H. lia. }
  destruct (bindable v) eqn:Hb.
  - destruct (run (Select false "*" table (Some (Equals column v)) None)
                  (committed st)) as [eff|e] eqn:Hrun.
    + rewrite (check_exists_ok _ _ _ _ _ Hp Hf Hb Hrun).
      rewrite (select_one_ok _ _ _ _ _ Hp Hf Hb Hrun).
      cbn [fst snd log]. destruct (eff_rows eff) as [|r rows]; simpl.
      * split; [|split]; split; try done.
        -- by intros [r [=]].
        -- intros [_ H]; first [by apply Hlog in H | symmetry in H; by apply Hlog in H].
      * split; [|split]; split; try done.
        -- by exists r.
        -- by intros [[=] _].
        -- by intros [[=] _].
    + destruct st as [db p res rc lg fs]. simpl in *. subst p fs.
      unfold check_if_entry_exists, select_one_entry, try_except,
        with_connection, execute, begin_if_dml, bind_parameters, run_statement,
        storage_call, commit, rollback, logger_exception, mbind, Py_bind, mret,
        Py_ret.
      simpl. rewrite Hb. simpl. unfold view. simpl. rewrite Hrun. simpl.
      split; [|split]; split; try done.
      * by intros [r [=]].
      * intros [_ H]; first [by apply Hlog in H | symmetry in H; by apply Hlog in H].
  - destruct st as [db p res rc lg fs]. simpl in *. subst p fs.
    unfold check_if_entry_exists, select_one_entry, try_except,
      with_connection, execute, begin_if_dml, bind_parameters, run_statement,
      storage_call, commit, rollback, logger_exception, raise, mbind, Py_bind,
      mret, Py_ret.
    simpl. rewrite Hb. simpl.
    split; [|split]; split; try done.
    + by intros [r [=]].
    + intros [_ H]; first [by apply Hlog in H | symmetry in H; by apply Hlog in H].
Qed.

(** X12 at the store [catalogue], for the title Heat. *)
Lemma check_agrees_with_select_witness :
  (check_if_entry_exists "media" "title" (VText "Heat") catalogue).2
  = Ok (Some true).
Proof.
  apply (check_agrees_with_select catalogue "media" "title" (VText "Heat"));
    [reflexivity | reflexivity |].
  exists heat. vm_compute. reflexivity.
Defined.

(** X13.  None as the value matches no row, whatever the rows hold in the
    column: [select_one_entry] returns None and [check_if_entry_exists]
    answers False, and neither logs anything. *)
Theorem none_matches_no_row (st : state) (table column : string)
    (t : Sql.table) (i : nat) :
  pending st = None -> faults st = [] ->
  find_table (committed st) table = Some t ->
  resolve_column (tbl_columns t) column = Some i ->
  select_one_entry table column VNull st
  = (State (committed st) None [] (-1) (log st) [], [], Ok None)
  /\ check_if_entry_exists table column VNull st
     = (State (committed st) None [] (-1) (log st) [], [], Ok (Some false)).
Proof.
  intros Hp Hf Ht Hi.
  pose proof (run_select_null _ _ _ _ _ Ht Hi) as Hrun.
  rewrite (select_one_ok table column VNull st _ Hp Hf eq_refl Hrun).
  rewrite (check_exists_ok table column VNull st _ Hp Hf eq_refl Hrun).
  split; reflexivity.
Qed.

(** X13 at the store [catalogue] with one more entry, which has no genre. *)
Lemma none_matches_no_row_witness :
  let st := (add_entry (VText "Alien") VNull VNull VNull VNull VNull VNull
               VNull VNull catalogue).1.1 in
  (exists r, rows_of "media" st = Some [heat; oceans; r] /\ m_genre r = VNull)
  /\ (check_if_entry_exists "media" "genre" VNull st).2 = Ok (Some false).
Proof.
  intros st. split.
  - eexists. vm_compute. split; reflexivity.
  - destruct (none_matches_no_row st "media" "genre"
                (Table media_columns
                   [heat; oceans;
                    [VInt 3; VText "Alien"; VNull; VNull; VNull; VNull; VNull;
                     VNull; VNull; VNull]]) 4) as [_ H].
    + reflexivity.
    + reflexivity.
    + vm_compute. reflexivity.
    + reflexivity.
    + rewrite H. reflexivity.
Defined.



(** X15.  [search] with a column of the media table and a query that has
    none of the characters '%', '_' and NUL and whose pattern [%query%] is
    within the 50000 bytes [LIKE] takes: a full iteration yields, in table
    order, exactly the media rows of which that column, read up to its first
    NUL character, contains the query as a case-insensitive substring. *)
Theorem search_one_column (st : state) (rows : list row)
    (query column : string) (i : nat) (count : Z) :
  pending st = None -> faults st = [] ->
  find_table (committed st) "media" = Some (Table media_columns rows) ->
  resolve_column media_columns column = Some i ->
  (- 2 ^ 31 <= count < 2 ^ 31)%Z ->
  wildcard_free query -> nul_free query -> fits_like query ->
  let found := concat (search query (Some column) count st).1.2 in
  sublist found rows
  /\ forall r, r ∈ found <-> r ∈ rows /\ cell_holds (cell r i) query.
Proof.
  intros Hp Hf Ht Hi Hc Hq Hn Hfit found. subst found. unfold search.
  set (p := VText ("%" ++ query ++ "%")%string).
  set (f := fun r : row => sql_like (cell r i) p).
  match goal with |- context [Select ?a ?b ?c ?w ?o] =>
    assert (run (Select a b c w o) (committed st)
            = Ok (Effect (committed st) (List.filter (selected f) rows) (-1)))
      as Hrun end.
  { unfold run. rewrite Ht. unfold tbl_columns, tbl_rows.
    change (compile_result media_columns "*") with (Some (fun r : row => r)).
    unfold compile_where, compile_expr, compile_order. rewrite Hi. simpl.
    unfold where_raises. cbn [from_option too_complex]. subst p.
    rewrite (fits_like_pattern _ Hfit). cbn [andb].
    by rewrite list_fmap_id. }
  match type of Hrun with run ?s _ = _ =>
    destruct (stream_ok s count "Error in MDBHandler.search" st _ Hp Hf eq_refl
                eq_refl Hc Hrun)
      as (out & -> & Hcat & _) end.
  unfold fst, snd. rewrite Hcat. unfold eff_rows. split; [apply filter_sublist|].
  intros r. rewrite elem_of_filter. unfold selected.
  assert (f r = Some true <-> cell_holds (cell r i) query) as Hf'.
  { unfold f. subst p. by rewrite sql_like_contains. }
  rewrite <- Hf'. destruct (f r) as [[]|]; split; intros [? ?]; split; done.
Qed.

(** X15 at the store [catalogue], for the query "cri" in the genre column. *)
Lemma search_one_column_witness :
  wildcard_free "cri"
  /\ sublist (concat (search "cri" (Some "genre") 1000 catalogue).1.2)
             [heat; oceans].
Proof.
  assert (wildcard_free "cri") as Hq.
  { unfold wildcard_free. simpl. repeat constructor; discriminate. }
  split; [exact Hq|].
  apply (search_one_column catalogue [heat; oceans] "cri" "genre" 4 1000).
  - reflexivity.
  - reflexivity.
  - vm_compute. reflexivity.
  - reflexivity.
  - lia.
  - exact Hq.
  - unfold nul_free. simpl. intros Hin.
    repeat (apply elem_of_cons in Hin as [Hin|Hin]; [discriminate Hin|]).
    by apply elem_of_nil in Hin.
  - unfold fits_like, max_like_pattern. simpl. lia.
Defined.

(** X16.  With ["*"] as the column, which the docstring of
    [return_all_entries] gives for complete rows, the statement ends in
    [ORDER BY *]: on each table of the program [return_all_entries] and
    [return_distinct_entries] yield no row, leave the cursor without rows
    and log an error. *)
Theorem return_entries_star (st : state) (table : string) (t : Sql.table)
    (count : Z) :
  pending st = None -> faults st = [] ->
  find_table (committed st) table = Some t ->
  tbl_columns t ∈ [media_types_columns; genres_columns; media_columns] ->
  return_all_entries table "*" count st
  = (State (committed st) None [] (-1)
           (log st ++ ["Error in MDBHandler.return_all_entries"]) [], [], Ok tt)
  /\ return_distinct_entries table "*" count st
     = (State (committed st) None [] (-1)
              (log st ++ ["Error in MDBHandler.return_distinct_entries"]) [],
        [], Ok tt).
Proof.
  intros Hp Hf Ht Hcols.
  assert (forall distinct,
            run (Select distinct "*" table None (Some "*")) (committed st)
            = Raise OperationalError) as Hrun.
  { intros distinct. unfold run. rewrite Ht.
    change (compile_result (tbl_columns t) "*") with (Some (fun r : row => r)).
    unfold compile_where, compile_order.
    assert (resolve_column (tbl_columns t) "*" = None) as ->; [|reflexivity].
    repeat (apply elem_of_cons in Hcols as [->|Hcols]); try reflexivity.
    by apply elem_of_nil in Hcols. }
  unfold return_all_entries, return_distinct_entries.
  split; apply (stream_raise _ _ _ _ OperationalError); auto.
Qed.

(** X16 at the store [catalogue], for the media table. *)
Lemma return_entries_star_witness :
  (return_all_entries "media" "*" 1000 catalogue).1.2 = []
  /\ log (return_all_entries "media" "*" 1000 catalogue).1.1
     = log catalogue ++ ["Error in MDBHandler.return_all_entries"].
Proof.
  destruct (return_entries_star catalogue "media"
              (Table media_columns [heat; oceans]) 1000) as [H _].
  - reflexivity.
  - reflexivity.
  - vm_compute. reflexivity.
  - right; right; left.
  - rewrite H. split; reflexivity.
Defined.

(** ** The summary *)

Section Summary.

Lemma append_assoc (a b c : string) : ((a ++ b) ++ c = a ++ (b ++ c))%string.
Proof. apply chars_inj. by rewrite !chars_app, app_assoc. Qed.

Lemma foldl_append (f : value -> string) (acc : string) (vs : list value) :
  foldl (fun out v => (out ++ f v)%string) acc vs
  = (acc ++ foldr (fun v s => f v ++ s) EmptyString vs)%string.
Proof.
  revert acc. induction vs as [|v vs IH]; intros acc; simpl.
  - apply chars_inj. by rewrite chars_app, app_nil_r.
  - by rewrite IH, append_assoc.
Qed.

Lemma remove_dups_fmap_inj {A B} `{EqDecision A, EqDecision B} (f : A -> B)
    `{!Inj (=) (=) f} (l : list A) :
  remove_dups (f <$> l) = f <$> remove_dups l.
Proof.
  induction l as [|x l IH]; [done|]. rewrite fmap_cons. cbn [remove_dups].
  destruct (decide_rel elem_of (f x) (f <$> l)) as [H|H];
    destruct (decide_rel elem_of x l) as [H'|H']; try rewrite fmap_cons.
  - exact IH.
  - exfalso. apply list_elem_of_fmap in H as (y & Hy & Hin).
    apply (inj f) in Hy. by subst.
  - exfalso. apply H. by apply list_elem_of_fmap_2.
  - by rewrite IH.
Qed.

(** The rows the SELECT DISTINCT of the loop gives. *)
Lemma run_distinct_media_types (db : database) (rows : list row) :
  find_table db "media" = Some (Table media_columns rows) ->
  run (Select true "media_type" "media" None (Some "media_type")) db
  = Ok (Effect db ((fun v : value => [v]) <$> media_types_of rows) (-1)).
Proof.
  intros Ht.
  rewrite (run_select_column true db "media" "media_type" _ 7 Ht);
    [|discriminate|reflexivity].
  unfold media_types_of, tbl_rows. cbv zeta iota.
  rewrite <- remove_dups_fmap_inj, <- list_fmap_compose. reflexivity.
  by intros v w [=].
Qed.

Lemma run_count_all (db : database) (rows : list row) :
  find_table db "media" = Some (Table media_columns rows) ->
  run_count "media" None db = Ok [[VInt (Z.of_nat (length rows))]].
Proof.
  intros Ht. unfold run_count, run. rewrite Ht. unfold tbl_columns, tbl_rows.
  change (compile_result media_columns "*") with (Some (fun r : row => r)).
  unfold compile_where, compile_order. cbv beta iota. plain_clause.
  unfold eff_rows. by rewrite length_fmap, filter_all.
Qed.

Lemma run_count_type (db : database) (rows : list row) (v : value) :
  find_table db "media" = Some (Table media_columns rows) ->
  (forall n, v <> VInt n) ->
  run_count "media" (Some (Equals "media_type" v)) db
  = Ok [[VInt (entries_of_type rows v)]].
Proof.
  intros Ht Hv. unfold run_count, run. rewrite Ht. unfold tbl_columns, tbl_rows.
  change (compile_result media_columns "*") with (Some (fun r : row => r)).
  change (compile_where media_columns (Some (Equals "media_type" v)))
    with (Some (selected (fun r : row =>
                            sql_eq (cell r 7) (apply_affinity VARCHAR v)))).
  unfold compile_order. cbv beta iota. plain_clause.
  unfold eff_rows, entries_of_type. rewrite length_fmap. do 6 f_equal. apply List.filter_ext. intros r.
  destruct v as [|n|s]; [| by destruct (Hv n) |].
  - rewrite selected_null. symmetry. apply bool_decide_eq_false. tauto.
  - change (apply_affinity VARCHAR (VText s)) with (VText s).
    destruct (selected _ r) eqn:E; symmetry.
    + apply bool_decide_eq_true. split; [|done]. by apply selected_equals_text.
    + apply bool_decide_eq_false. intros [H _].
      apply selected_equals_text in H. congruence.
Qed.

Lemma bindable_not_int (v : value) : (forall n, v <> VInt n) -> bindable v = true.
Proof. destruct v as [|n|s]; intros H; [done | by destruct (H n) | done]. Qed.

(** One round of the loop: the count replaces what the cursor held. *)
Lemma count_entries_round_ok db rows res rc lg (acc : string) (v : value) :
  find_table db "media" = Some (Table media_columns rows) ->
  (forall n, v <> VInt n) ->
  count_entries_round acc [v] (State db None res rc lg [])
  = (State db None [] (-1) lg [], [],
     Ok (acc ++ summary_line rows v)%string).
Proof.
  intros Ht Hv.
  unfold count_entries_round, execute_count, bind_parameters,
    run_count_statement, storage_call, fetchone, next_row, first_of, index,
    mbind, Py_bind, mret, Py_ret.
  simpl. rewrite (bindable_not_int v Hv). simpl. unfold view. simpl.
  rewrite (run_count_type db rows v Ht Hv). simpl. reflexivity.
Qed.

Lemma for_each_rounds db rows lg (vs : list value) :
  find_table db "media" = Some (Table media_columns rows) ->
  Forall (fun v => forall n, v <> VInt n) vs ->
  forall res rc acc,
  for_each count_entries_round acc ((fun v : value => [v]) <$> vs)
           (State db None res rc lg [])
  = (State db None (match vs with [] => res | _ => [] end)
           (match vs with [] => rc | _ => (-1)%Z end) lg [], [],
     Ok (foldl (fun out v => (out ++ summary_line rows v)%string) acc vs)).
Proof.
  intros Ht Hvs. induction Hvs as [|v vs Hv _ IH]; intros res rc acc.
  - reflexivity.
  - rewrite fmap_cons. cbn [for_each]. unfold mbind, Py_bind.
    rewrite (count_entries_round_ok db rows res rc lg acc v Ht Hv).
    rewrite IH. destruct vs; reflexivity.
Qed.

Lemma media_types_textual (rows : list row) :
  (forall r n, r ∈ rows -> m_media_type r <> VInt n) ->
  Forall (fun v => forall n, v <> VInt n) (take 1000 (media_types_of rows)).
Proof.
  intros H. apply Forall_forall. intros v Hv n ->.
  apply elem_of_take in Hv as (j & Hv & _).
  apply list_elem_of_lookup_2 in Hv. unfold media_types_of in Hv.
  apply elem_of_remove_dups, list_elem_of_fmap in Hv as (r & Hr & Hin).
  rewrite order_by_perm in Hin. by apply (H r n).
Qed.

End Summary.

(** X17.  [count_entries] on a media table whose media types are texts (or
    missing): whatever the number of fetches the loop is allowed (two or
    more), the result is the summary of the table -- the total, then for each
    of the first 1000 media types in ascending order its name and the number
    of entries that have it -- and nothing is logged.  The counting statement
    runs on the cursor the loop reads its media types from, so those beyond
    the first page of 1000 are left out. *)
Theorem count_entries_summary (st : state) (rows : list row) (fuel : nat) :
  pending st = None -> faults st = [] ->
  find_table (committed st) "media" = Some (Table media_columns rows) ->
  (forall r n, r ∈ rows -> m_media_type r <> VInt n) ->
  (2 <= fuel)%nat ->
  (count_entries_with fuel st).2 = Ok (Some (summary_of rows))
  /\ log (count_entries_with fuel st).1.1 = log st
  /\ committed (count_entries_with fuel st).1.1 = committed st.
Proof.
  intros Hp Hf Ht Htext Hfuel.
  destruct fuel as [|[|fuel]]; [lia | lia |]. clear Hfuel.
  destruct st as [db p res rc lg fs]. simpl in Hp, Hf, Ht. subst p fs.
  pose proof (media_types_textual rows Htext) as Hvs.
  unfold summary_of. rewrite <- !append_assoc.
  rewrite <- (foldl_append (summary_line rows)). rewrite !append_assoc.
  unfold count_entries_with, try_except, with_connection, for_in_stream,
    generator_step, catch, execute, execute_count, begin_if_dml,
    bind_parameters, run_count_statement, run_statement, storage_call,
    fetchone, next_row, first_of, index, commit, rollback, mbind, Py_bind,
    mret, Py_ret.
  simpl. unfold view. simpl. rewrite (run_count_all db rows Ht). simpl.
  unfold view. simpl. rewrite (run_distinct_media_types db rows Ht). simpl.
  unfold generator_step, catch, fetchmany, storage_call, next_rows, mbind,
    Py_bind, mret, Py_ret.
  simpl.
  change (Z.to_nat 1000) with 1000%nat.
  rewrite <- fmap_take, <- fmap_drop.
  destruct (take 1000 (media_types_of rows)) as [|v vs] eqn:E.
  - simpl. unfold with_connection, commit, mret, Py_ret. simpl.
    repeat split; reflexivity.
  - pose proof (for_each_rounds db rows lg (v :: vs) Ht Hvs) as Hloop.
    rewrite fmap_cons. cbv beta iota.
    change ([v] :: ((fun v : value => [v]) <$> vs))
      with ((fun v : value => [v]) <$> (v :: vs)).
    rewrite Hloop. cbv beta iota.
    unfold generator_step, catch, fetchmany, storage_call, next_rows,
      with_connection, commit, mbind, Py_bind, mret, Py_ret.
    simpl. repeat split; reflexivity.
Qed.

(** X17 at the store [catalogue]. *)
Lemma count_entries_summary_witness :
  (count_entries catalogue).2
  = Ok (Some ("Total Media Count: 2 entries" ++ newline ++ "DVD: 2")%string).
Proof.
  destruct (count_entries_summary catalogue [heat; oceans] 2) as [H _].
  - reflexivity.
  - reflexivity.
  - vm_compute. reflexivity.
  - intros r n Hr.
    repeat (apply elem_of_cons in Hr as [->|Hr]); try discriminate.
    by apply elem_of_nil in Hr.
  - lia.
  - unfold count_entries. rewrite H. vm_compute. reflexivity.
Defined.

(** ** New rows and their keys *)

Section Additions.






End Additions.

(** X18.  A storage failure in the statement of the loop of [count_entries]
    (its third call to the storage) is caught inside
    [return_distinct_entries]: [count_entries] still returns a summary, which
    holds the total only, and the one error logged is that of
    [return_distinct_entries]. *)
Theorem count_entries_inner_failure (db : database) (rows res : list row)
    (rc : Z) (lg : list string) (fs : list bool) :
  find_table db "media" = Some (Table media_columns rows) ->
  count_entries (State db None res rc lg (false :: false :: true :: fs))
  = (State db None [] (-1)
       (lg ++ ["Error in MDBHandler.return_distinct_entries"]) fs, [],
     Ok (Some (rstrip [","%char; " "%char]
                 ("Total Media Count: " ++ decimal (Z.of_nat (length rows))
                    ++ " entries" ++ newline)%string))).
Proof.
  intros Ht.
  unfold count_entries, count_entries_with, try_except, with_connection,
    for_in_stream, generator_step, catch, execute, execute_count, begin_if_dml,
    bind_parameters, run_count_statement, run_statement, storage_call,
    fetchone, next_row, first_of, index, commit, rollback, logger_exception,
    mbind, Py_bind, mret, Py_ret.
  simpl. unfold view. simpl. rewrite (run_count_all db rows Ht). simpl.
  reflexivity.
Qed.

(** X18 at the store [catalogue]. *)
Lemma count_entries_inner_failure_witness :
  (count_entries (with_faults [false; false; true] catalogue)).2
  = Ok (Some ("Total Media Count: 2 entries" ++ newline)%string).
Proof.
  unfold with_faults.
  rewrite (count_entries_inner_failure _ [heat; oceans]).
  - vm_compute. reflexivity.
  - vm_compute. reflexivity.
Defined.





(** X21.  [delete_genre] and [delete_media_type] read the cells of the row
    inside their [try]: given a row of fewer than two cells they return
    normally, log their error and change nothing in the store. *)
Theorem delete_classification_short_row (st : state) (entry : list value) :
  pending st = None ->
  (length entry < 2)%nat ->
  delete_genre entry st
  = (State (committed st) None (results st) (rowcount st)
           (log st ++ ["Error in MDBHandler.delete_genre"]) (faults st),
     [], Ok tt)
  /\ delete_media_type entry st
     = (State (committed st) None (results st) (rowcount st)
              (log st ++ ["Error in MDBHandler.delete_media_types"]) (faults st),
        [], Ok tt).
Proof.
  intros Hp H. destruct st as [db p res rc lg fs]. simpl in Hp. subst p.
  destruct entry as [|e0 [|e1 rest]]; [split; reflexivity | split; reflexivity|].
  simpl in H. lia.
Qed.

(** X21 for the row of one cell. *)
Lemma delete_classification_short_row_witness :
  log (delete_genre [VInt 1] catalogue).1.1
  = log catalogue ++ ["Error in MDBHandler.delete_genre"].
Proof.
  destruct (delete_classification_short_row catalogue [VInt 1]) as [H _].
  - reflexivity.
  - simpl. lia.
  - rewrite H. reflexivity.
Defined.



(** ** One row, and the page size *)



(** X24.  A page size that does not fit a C int makes the first fetch raise
    OverflowError after the statement has run: [return_all_entries] and
    [return_distinct_entries] then yield no row, log their error and leave
    the database file as it was. *)
Theorem page_size_overflow (st : state) (table column : string)
    (t : Sql.table) (i : nat) (count : Z) :
  pending st = None -> faults st = [] ->
  find_table (committed st) table = Some t ->
  column <> "*" ->
  resolve_column (tbl_columns t) column = Some i ->
  (count < - 2 ^ 31 \/ 2 ^ 31 <= count)%Z ->
  ((return_all_entries table column count st).1.2 = []
   /\ log (return_all_entries table column count st).1.1
      = log st ++ ["Error in MDBHandler.return_all_entries"]
   /\ committed (return_all_entries table column count st).1.1 = committed st)
  /\ ((return_distinct_entries table column count st).1.2 = []
      /\ log (return_distinct_entries table column count st).1.1
         = log st ++ ["Error in MDBHandler.return_distinct_entries"]
      /\ committed (return_distinct_entries table column count st).1.1
         = committed st).
Proof.
  intros Hp Hf Ht Hstar Hi Hc.
  assert (((- 2 ^ 31 <=? count) && (count <? 2 ^ 31))%Z = false) as Hrange.
  { apply andb_false_iff. rewrite Z.leb_gt, Z.ltb_ge. lia. }
  destruct st as [db p res rc lg fs]. simpl in Hp, Hf, Ht. subst p fs.
  split.
  - pose proof (run_select_column false db table column t i Ht Hstar Hi) as Hrun.
    unfold return_all_entries, try_except, with_connection, execute,
      begin_if_dml, bind_parameters, run_statement, storage_call, fetch_all,
      commit, rollback, logger_exception, mbind, Py_bind.
    simpl. unfold view. simpl. rewrite Hrun. simpl.
    unfold fetchmany, mbind, Py_bind. rewrite Hrange. simpl.
    repeat split; reflexivity.
  - pose proof (run_select_column true db table column t i Ht Hstar Hi) as Hrun.
    unfold return_distinct_entries, try_except, with_connection, execute,
      begin_if_dml, bind_parameters, run_statement, storage_call, fetch_all,
      commit, rollback, logger_exception, mbind, Py_bind.
    simpl. unfold view. simpl. rewrite Hrun. simpl.
    unfold fetchmany, mbind, Py_bind. rewrite Hrange. simpl.
    repeat split; reflexivity.
Qed.

(** X24 at the store [catalogue], for a page size of 2^31. *)
Lemma page_size_overflow_witness :
  (return_all_entries "media" "title" (2 ^ 31) catalogue).1.2 = [].
Proof.
  apply (page_size_overflow catalogue "media" "title"
           (Table media_columns [heat; oceans]) 1 (2 ^ 31)).
  - reflexivity.
  - reflexivity.
  - vm_compute. reflexivity.
  - discriminate.
  - reflexivity.
  - right. lia.
Defined.
